(** * zhihu_scraper: a shallow embedding of [src/zhihu_scraper.py]

    The development follows the source file top to bottom: the text
    extractor ([TextOnlyHTMLParser], [parse_answer_text]), the chunker
    ([chunk_text]), the paginated retrieval ([fetch_answers]) and the writer
    ([write_answers_to_csv], [main]).

    Conventions.
    - A Python [str] is a [string]; a character is a code point below 256.
    - A Python [int] is a [Z].
    - A call that may raise returns an [outcome]. *)

From Stdlib Require Import String Ascii List ZArith Lia Bool Arith.
Import ListNotations.

Local Open Scope list_scope.
Local Open Scope string_scope.

(** ** Results of calls *)

(** The exceptions the modelled code can raise. *)
Inductive exn : Type :=
| ValueError (msg : string)
| TypeError
| AttributeError
| RuntimeError.

(** [Returns] and [Raises] are Python's two ways out of a call.  [OutOfFuel]
    says that a loop written with a fuel argument was cut short; [Unmodelled]
    says that the run left the part of the standard library that is modelled
    here. *)
Inductive outcome (A : Type) : Type :=
| Returns (a : A)
| Raises (e : exn)
| OutOfFuel
| Unmodelled.

Arguments Returns {A} a.
Arguments Raises {A} e.
Arguments OutOfFuel {A}.
Arguments Unmodelled {A}.

Definition bind {A B : Type} (m : outcome A) (k : A -> outcome B) : outcome B :=
  match m with
  | Returns a => k a
  | Raises e => Raises e
  | OutOfFuel => OutOfFuel
  | Unmodelled => Unmodelled
  end.

Notation "x <- m ;; k" := (bind m (fun x => k))
  (at level 61, m at next level, right associativity).

(** ** Strings *)

Module Str.

Definition code (c : ascii) : nat := nat_of_ascii c.

Definition is_empty (s : string) : bool :=
  match s with
  | EmptyString => true
  | String _ _ => false
  end.

(** [str.isspace] on one character: U+0009..U+000D, U+001C..U+0020, U+0085
    and U+00A0. *)
Definition is_space (c : ascii) : bool :=
  let n := code c in
  (((9 <=? n) && (n <=? 13)) || ((28 <=? n) && (n <=? 32))
   || (n =? 133) || (n =? 160))%nat.

(** The line boundaries of [str.splitlines]: LF, VT, FF, CR, FS, GS, RS and
    NEL. *)
Definition is_linebreak (c : ascii) : bool :=
  let n := code c in
  (((10 <=? n) && (n <=? 13)) || ((28 <=? n) && (n <=? 30)) || (n =? 133))%nat.

Definition LF : ascii := ascii_of_nat 10.
Definition CR : ascii := ascii_of_nat 13.

(** The one-character string [\n]. *)
Definition nl : string := String LF EmptyString.

Fixpoint lstrip (s : string) : string :=
  match s with
  | EmptyString => EmptyString
  | String c rest => if is_space c then lstrip rest else s
  end.

Fixpoint rstrip (s : string) : string :=
  match s with
  | EmptyString => EmptyString
  | String c rest =>
      let rest' := rstrip rest in
      if is_empty rest' && is_space c then EmptyString else String c rest'
  end.

(** [s.strip()] *)
Definition strip (s : string) : string := rstrip (lstrip s).

(** [s.splitlines()]: [cur] is the line being read. *)
Fixpoint splitlines_from (cur : string) (s : string) : list string :=
  match s with
  | EmptyString => if is_empty cur then [] else [cur]
  | String c rest =>
      if is_linebreak c then
        cur :: match rest with
               | String c' rest' =>
                   if Ascii.eqb c CR && Ascii.eqb c' LF
                   then splitlines_from EmptyString rest'
                   else splitlines_from EmptyString rest
               | EmptyString => splitlines_from EmptyString rest
               end
      else splitlines_from (cur ++ String c EmptyString) rest
  end.

Definition splitlines (s : string) : list string :=
  splitlines_from EmptyString s.

(** [sep.join(parts)] is [String.concat sep parts]. *)
Definition join (sep : string) (parts : list string) : string :=
  String.concat sep parts.

(** [c in s] *)
Fixpoint contains (c : ascii) (s : string) : bool :=
  match s with
  | EmptyString => false
  | String c' rest => Ascii.eqb c c' || contains c rest
  end.

(** [s[start:]] *)
Fixpoint drop (start : nat) (s : string) : string :=
  match start, s with
  | O, _ => s
  | S _, EmptyString => EmptyString
  | S start', String _ rest => drop start' rest
  end.

(** [s[start:stop]] for [0 <= start <= stop]. *)
Definition slice (s : string) (start stop : Z) : string :=
  substring (Z.to_nat start) (Z.to_nat (stop - start)) s.

Definition first_char (s : string) : option ascii :=
  match s with
  | EmptyString => None
  | String c _ => Some c
  end.

Fixpoint last_char (s : string) : option ascii :=
  match s with
  | EmptyString => None
  | String c EmptyString => Some c
  | String _ rest => last_char rest
  end.

Definition is_alpha (c : ascii) : bool :=
  let n := code c in
  (((65 <=? n) && (n <=? 90)) || ((97 <=? n) && (n <=? 122)))%nat.

Definition is_digit (c : ascii) : bool :=
  let n := code c in ((48 <=? n) && (n <=? 57))%nat.

Definition is_hexdigit (c : ascii) : bool :=
  let n := code c in
  (is_digit c || ((65 <=? n) && (n <=? 70)) || ((97 <=? n) && (n <=? 102)))%nat.

Definition is_alnum (c : ascii) : bool := is_alpha c || is_digit c.

(** [c.lower()]: A..Z, and the capital letters U+00C0..U+00DE but U+00D7. *)
Definition lower_char (c : ascii) : ascii :=
  let n := code c in
  if (((65 <=? n) && (n <=? 90))
      || ((192 <=? n) && (n <=? 222) && negb (n =? 215)))%nat
  then ascii_of_nat (n + 32) else c.

Fixpoint lower (s : string) : string :=
  match s with
  | EmptyString => EmptyString
  | String c rest => String (lower_char c) (lower rest)
  end.

(** The longest prefix of [s] whose characters satisfy [p], and the rest. *)
Fixpoint span (p : ascii -> bool) (s : string) : string * string :=
  match s with
  | EmptyString => (EmptyString, EmptyString)
  | String c rest =>
      if p c then let (a, b) := span p rest in (String c a, b)
      else (EmptyString, s)
  end.

(** What follows the first occurrence of [c] in [s]. *)
Fixpoint after (c : ascii) (s : string) : option string :=
  match s with
  | EmptyString => None
  | String c' rest => if Ascii.eqb c c' then Some rest else after c rest
  end.

End Str.

(** ** The chunker *)

Definition chunk_size_error : exn := ValueError "chunk_size must be positive".

(** The [while start < length] loop of [chunk_text]; one unit of fuel per
    iteration. *)
Fixpoint chunk_loop (fuel : nat) (text : string) (chunk_size start : Z)
    (chunks : list string) : outcome (list string) :=
  match fuel with
  | O => OutOfFuel
  | S fuel' =>
      if (start <? Z.of_nat (String.length text))%Z
      then chunk_loop fuel' text chunk_size (start + chunk_size)%Z
             (chunks ++ [Str.slice text start (start + chunk_size)])
      else Returns chunks
  end.

Definition chunk_text (text : string) (chunk_size : Z)
  : outcome (list string) :=
  if (chunk_size <=? 0)%Z then Raises chunk_size_error
  else if Str.is_empty text then Returns [""]
  else chunk_loop (S (String.length text)) text chunk_size 0 [].

(** ** The standard library's tag tokenizer

    [TextOnlyHTMLParser] inherits [feed], [close] and [goahead] from
    [html.parser.HTMLParser], built with [convert_charrefs=False].  The
    module below models the events that [feed] followed by [close] deliver
    for one whole document.  It covers character data, start tags without
    attributes, end tags, the raw-text content of [script] and [style], and
    well-formed character and entity references; on comments, declarations,
    processing instructions, tags with attributes and unfinished constructs
    it answers [Unmodelled]. *)

Module HTMLParser.

Inductive event : Type :=
| StartTag (tag : string)
| EndTag (tag : string)
| Data (data : string)
| EntityRef (name : string)
| CharRef (name : string).

Definition CDATA_CONTENT_ELEMENTS : list string := ["script"; "style"].

Definition char_is (c : ascii) (lit : string) : bool :=
  match lit with
  | String c' EmptyString => Ascii.eqb c c'
  | _ => false
  end.

Definition skip_space (s : string) : string := snd (Str.span Str.is_space s).

(** [[^\t\n\r\f />\x00]]: what a tag name continues with. *)
Definition is_tagname_char (c : ascii) : bool :=
  let n := Str.code c in
  negb ((n =? 9) || (n =? 10) || (n =? 13) || (n =? 12) || (n =? 32)
        || (n =? 47) || (n =? 62) || (n =? 0))%nat.

(** [[-.a-zA-Z0-9:_]] of [endtagfind]. *)
Definition is_endname_char (c : ascii) : bool :=
  Str.is_alnum c || char_is c "-" || char_is c "." || char_is c ":"
  || char_is c "_".

(** [[-.a-zA-Z0-9]] of [entityref]. *)
Definition is_entity_char (c : ascii) : bool :=
  Str.is_alnum c || char_is c "-" || char_is c ".".

(** [parse_starttag] on what follows ["<"], which begins with a letter:
    the name, then white space and slashes, then [">"].  A tag whose last
    character before [">"] is a slash goes to [handle_startendtag], which
    calls [handle_starttag] and [handle_endtag]; any other start tag of a
    [CDATA_CONTENT_ELEMENTS] name switches to raw text. *)
Definition parse_starttag (r : string)
  : option (list event * option string * string) :=
  let (name, r1) := Str.span is_tagname_char r in
  let (tail, r2) := Str.span (fun c => Str.is_space c || char_is c "/") r1 in
  match r2 with
  | String c rest =>
      if char_is c ">" then
        let tag := Str.lower name in
        match Str.last_char tail with
        | Some l =>
            if char_is l "/" then Some ([StartTag tag; EndTag tag], None, rest)
            else Some ([StartTag tag],
                       if existsb (String.eqb tag) CDATA_CONTENT_ELEMENTS
                       then Some tag else None, rest)
        | None =>
            Some ([StartTag tag],
                  if existsb (String.eqb tag) CDATA_CONTENT_ELEMENTS
                  then Some tag else None, rest)
        end
      else None
  | EmptyString => None
  end.

(** [endtagfind] on what follows ["</"]: white space, a name, white space
    and [">"]. *)
Definition endtagfind (r : string) : option (string * string) :=
  let r1 := skip_space r in
  match r1 with
  | String c _ =>
      if Str.is_alpha c then
        let (name, r2) := Str.span is_endname_char r1 in
        match skip_space r2 with
        | String g rest => if char_is g ">" then Some (name, rest) else None
        | EmptyString => None
        end
      else None
  | EmptyString => None
  end.

(** [parse_endtag] outside raw text, on what follows ["</"].  Without a
    [">"] the tag is unfinished.  When [endtagfind] fails, a name that
    [tagfind_tolerant] finds is still reported and everything up to the
    next [">"] is dropped; ["</>"] and a bogus comment deliver nothing. *)
Definition parse_endtag (r : string) : option (list event * string) :=
  match Str.after ">" r with
  | None => None
  | Some past_gt =>
      match endtagfind r with
      | Some (name, rest) => Some ([EndTag (Str.lower name)], rest)
      | None =>
          match r with
          | String c _ =>
              if Str.is_alpha c
              then
                let name := fst (Str.span is_tagname_char r) in
                Some ([EndTag (Str.lower name)], past_gt)
              else Some ([], past_gt)
          | EmptyString => None
          end
      end
  end.

(** A match of [elem], which is in lower case, at the head of [s], letters
    compared without case. *)
Fixpoint prefix_nocase (elem s : string) : option string :=
  match elem, s with
  | EmptyString, _ => Some s
  | String a elem', String b s' =>
      if Ascii.eqb a (Str.lower_char b) then prefix_nocase elem' s' else None
  | String _ _, EmptyString => None
  end.

(** A match of [</\s*elem\s*>] at the head of [s]: what follows it. *)
Definition match_close (elem s : string) : option string :=
  match s with
  | String c1 (String c2 r) =>
      if char_is c1 "<" && char_is c2 "/" then
        match prefix_nocase elem (skip_space r) with
        | Some r1 =>
            match skip_space r1 with
            | String g rest => if char_is g ">" then Some rest else None
            | EmptyString => None
            end
        | None => None
        end
      else None
  | _ => None
  end.

(** The first match of [</\s*elem\s*>] in [s]: the text before it, which
    is added to [data], and what follows it. *)
Fixpoint find_close (elem data s : string) : option (string * string) :=
  match s with
  | EmptyString => None
  | String c rest =>
      match match_close elem s with
      | Some past => Some (data, past)
      | None => find_close elem (data ++ String c EmptyString) rest
      end
  end.

(** [charref] on what follows ["&#"]: the name and the rest of the input.
    The character after the digits must not be a hexadecimal digit; it is
    consumed when it is a semicolon. *)
Definition charref (r : string) : option (string * string) :=
  match r with
  | String c r' =>
      if Str.is_digit c then
        let (digits, r1) := Str.span Str.is_digit r in
        match r1 with
        | String t rest =>
            if Str.is_hexdigit t then None
            else Some (digits, if char_is t ";" then rest else r1)
        | EmptyString => None
        end
      else if char_is c "x" || char_is c "X" then
        let (hex, r1) := Str.span Str.is_hexdigit r' in
        if Str.is_empty hex then None
        else match r1 with
             | String t rest =>
                 Some (String c hex, if char_is t ";" then rest else r1)
             | EmptyString => None
             end
      else None
  | EmptyString => None
  end.

(** [entityref] on what follows ["&"], which begins with a letter.  A name
    that runs to the end of the input is left out of the model. *)
Definition entityref (r : string) : option (string * string) :=
  let (name, r1) := Str.span is_entity_char r in
  match r1 with
  | String t rest => Some (name, if char_is t ";" then rest else r1)
  | EmptyString => None
  end.

(** [[^&<]]: what [interesting_normal] does not stop at. *)
Definition is_text_char (c : ascii) : bool :=
  negb (char_is c "&" || char_is c "<").

Definition data_event (data : string) : list event :=
  if Str.is_empty data then [] else [Data data].

(** The [while i < n] loop of [goahead], for [feed] followed by [close];
    each iteration consumes at least one character. *)
Fixpoint goahead (fuel : nat) (cdata_elem : option string) (rawdata : string)
  : outcome (list event) :=
  match fuel with
  | O => OutOfFuel
  | S fuel' =>
      match cdata_elem with
      | Some elem =>
          match find_close elem EmptyString rawdata with
          | None => Returns []
          | Some (data, rest) =>
              events <- goahead fuel' None rest ;;
              Returns (data_event data ++ EndTag elem :: events)%list
          end
      | None =>
          match Str.span is_text_char rawdata with
          | (String c data, rest) =>
              events <- goahead fuel' None rest ;;
              Returns (Data (String c data) :: events)
          | (EmptyString, EmptyString) => Returns []
          | (EmptyString, String c EmptyString) =>
              Returns [Data (String c EmptyString)]
          | (EmptyString, String c (String c' r' as r)) =>
              if char_is c "<" then
                if Str.is_alpha c' then
                  match parse_starttag r with
                  | Some (tags, cdata, rest) =>
                      events <- goahead fuel' cdata rest ;;
                      Returns (tags ++ events)%list
                  | None => Unmodelled
                  end
                else if char_is c' "/" then
                  match parse_endtag r' with
                  | Some (tags, rest) =>
                      events <- goahead fuel' None rest ;;
                      Returns (tags ++ events)%list
                  | None => Unmodelled
                  end
                else if char_is c' "!" || char_is c' "?" then Unmodelled
                else
                  events <- goahead fuel' None r ;;
                  Returns (Data "<" :: events)
              else
                if char_is c' "#" then
                  match charref r' with
                  | Some (name, rest) =>
                      events <- goahead fuel' None rest ;;
                      Returns (CharRef name :: events)
                  | None => Unmodelled
                  end
                else if Str.is_alpha c' then
                  match entityref r with
                  | Some (name, rest) =>
                      events <- goahead fuel' None rest ;;
                      Returns (EntityRef name :: events)
                  | None => Unmodelled
                  end
                else
                  events <- goahead fuel' None r ;;
                  Returns (Data "&" :: events)
          end
      end
  end.

(** [parser.feed(html); parser.close()] *)
Definition feed (html : string) : outcome (list event) :=
  goahead (S (String.length html)) None html.

End HTMLParser.

Export HTMLParser (event, StartTag, EndTag, Data, EntityRef, CharRef).

(** ** The rest of the standard library *)

(** Two functions of the standard library are taken as they are. *)
Class PyLib : Type := {
  (** [_charref.sub(_replace_charref, s)] of [html.unescape]: [inl] the
      string with every reference of [s] replaced through the HTML5 table,
      or [inr msg] when the call raises [ValueError(msg)], as the [int] of
      [_replace_charref] does for a decimal reference of more than 4300
      digits. *)
  replace_charrefs : string -> string + string;
  (** [int(s)] for a [str]; [None] when it raises [ValueError]. *)
  int_of_str : string -> option Z
}.

(** ** The text extractor *)

Section Extractor.

Context {lib : PyLib}.

(** [html.unescape] *)
Definition unescape (s : string) : outcome string :=
  if Str.contains "&" s then
    match replace_charrefs s with
    | inl text => Returns text
    | inr msg => Raises (ValueError msg)
    end
  else Returns s.

Definition _IGNORED_TAGS : list string :=
  ["script"; "style"; "noscript"; "svg"; "video"; "audio"; "figure"; "img";
   "iframe"].

Definition _BLOCK_TAGS : list string :=
  ["p"; "div"; "section"; "br"; "li"; "ul"; "ol"; "blockquote"; "pre";
   "code"; "h1"; "h2"; "h3"; "h4"; "h5"; "h6"; "table"; "tr"; "td"].

(** [tag in tags] *)
Definition mem (tag : string) (tags : list string) : bool :=
  existsb (String.eqb tag) tags.

Record TextOnlyHTMLParser : Type := {
  _parts : list string;
  _ignored_depth : Z
}.

Definition __init__ : TextOnlyHTMLParser :=
  {| _parts := []; _ignored_depth := 0 |}.

(** [self._parts.append(s)] *)
Definition append (self : TextOnlyHTMLParser) (s : string)
  : TextOnlyHTMLParser :=
  {| _parts := (self.(_parts) ++ [s])%list;
     _ignored_depth := self.(_ignored_depth) |}.

(** [if self._ignored_depth:] *)
Definition suppressed (self : TextOnlyHTMLParser) : bool :=
  negb (self.(_ignored_depth) =? 0)%Z.

Definition handle_starttag (self : TextOnlyHTMLParser) (tag : string)
  : TextOnlyHTMLParser :=
  if mem tag _IGNORED_TAGS then
    {| _parts := self.(_parts);
       _ignored_depth := (self.(_ignored_depth) + 1)%Z |}
  else if suppressed self then self
  else if mem tag _BLOCK_TAGS then append self Str.nl
  else self.

Definition handle_endtag (self : TextOnlyHTMLParser) (tag : string)
  : TextOnlyHTMLParser :=
  if suppressed self && mem tag _IGNORED_TAGS then
    {| _parts := self.(_parts);
       _ignored_depth := (self.(_ignored_depth) - 1)%Z |}
  else if suppressed self then self
  else if mem tag _BLOCK_TAGS then append self Str.nl
  else self.

(** The three handlers of text call [unescape], which may raise. *)
Definition handle_data (self : TextOnlyHTMLParser) (data : string)
  : outcome TextOnlyHTMLParser :=
  if suppressed self then Returns self
  else if negb (Str.is_empty (Str.strip data)) then
    text <- unescape data ;;
    Returns (append self text)
  else Returns self.

Definition handle_entityref (self : TextOnlyHTMLParser) (name : string)
  : outcome TextOnlyHTMLParser :=
  if suppressed self then Returns self
  else
    text <- unescape ("&" ++ name ++ ";") ;;
    Returns (append self text).

Definition handle_charref (self : TextOnlyHTMLParser) (name : string)
  : outcome TextOnlyHTMLParser :=
  if suppressed self then Returns self
  else
    text <- unescape ("&#" ++ name ++ ";") ;;
    Returns (append self text).

(** The handler the tokenizer calls for an event. *)
Definition handle (self : TextOnlyHTMLParser) (ev : event)
  : outcome TextOnlyHTMLParser :=
  match ev with
  | StartTag tag => Returns (handle_starttag self tag)
  | EndTag tag => Returns (handle_endtag self tag)
  | Data data => handle_data self data
  | EntityRef name => handle_entityref self name
  | CharRef name => handle_charref self name
  end.

(** The handlers called in turn for a stream of events; an exception of a
    handler ends the pass. *)
Fixpoint handle_all (self : TextOnlyHTMLParser) (events : list event)
  : outcome TextOnlyHTMLParser :=
  match events with
  | [] => Returns self
  | ev :: rest =>
      self' <- handle self ev ;;
      handle_all self' rest
  end.

(** The [for line in lines] loop of [get_text]. *)
Fixpoint filter_lines (lines filtered_lines : list string)
    (previous_blank : bool) : list string :=
  match lines with
  | [] => filtered_lines
  | line :: rest =>
      let is_blank := Str.is_empty line in
      if is_blank && previous_blank
      then filter_lines rest filtered_lines previous_blank
      else filter_lines rest (filtered_lines ++ [line]) is_blank
  end.

Definition get_text (self : TextOnlyHTMLParser) : string :=
  let text := Str.join "" self.(_parts) in
  let lines := map Str.strip (Str.splitlines text) in
  let filtered_lines := filter_lines lines [] false in
  Str.strip (Str.join Str.nl filtered_lines).

Definition parse_answer_text (html_content : string) : outcome string :=
  events <- HTMLParser.feed html_content ;;
  parser <- handle_all __init__ events ;;
  Returns (get_text parser).

End Extractor.

(** ** Decoded JSON

    What [json.loads] returns.  A number with a fraction or an exponent (a
    Python [float]) is outside the model.  An object is the list of its
    members in order, their keys distinct. *)

#[local] Unset Elimination Schemes.

Inductive json : Type :=
| JNull
| JBool (b : bool)
| JInt (n : Z)
| JStr (s : string)
| JList (items : list json)
| JDict (members : list (string * json)).

#[local] Set Elimination Schemes.

Module Py.

(** [bool(v)] *)
Definition truthy (v : json) : bool :=
  match v with
  | JNull => false
  | JBool b => b
  | JInt n => negb (n =? 0)%Z
  | JStr s => negb (Str.is_empty s)
  | JList items => match items with [] => false | _ :: _ => true end
  | JDict members => match members with [] => false | _ :: _ => true end
  end.

(** [a or b] *)
Definition or (a b : json) : json := if truthy a then a else b.

Fixpoint lookup (key : string) (members : list (string * json)) : option json :=
  match members with
  | [] => None
  | (k, v) :: rest => if String.eqb key k then Some v else lookup key rest
  end.

(** [v.get(key, default)]; only a [dict] has the method. *)
Definition get (v : json) (key : string) (default : json) : outcome json :=
  match v with
  | JDict members =>
      match lookup key members with
      | Some x => Returns x
      | None => Returns default
      end
  | _ => Raises AttributeError
  end.

Fixpoint chars (s : string) : list json :=
  match s with
  | EmptyString => []
  | String c rest => JStr (String c EmptyString) :: chars rest
  end.

(** What [for x in v] runs through. *)
Definition iter (v : json) : outcome (list json) :=
  match v with
  | JList items => Returns items
  | JStr s => Returns (chars s)
  | JDict members => Returns (map (fun m => JStr (fst m)) members)
  | _ => Raises TypeError
  end.

Definition invalid_literal : exn := ValueError "invalid literal for int()".

(** [int(v)] *)
Definition int {lib : PyLib} (v : json) : outcome Z :=
  match v with
  | JInt n => Returns n
  | JBool b => Returns (if b then 1 else 0)%Z
  | JStr s =>
      match int_of_str s with
      | Some n => Returns n
      | None => Raises invalid_literal
      end
  | _ => Raises TypeError
  end.

End Py.

(** ** The paginated retrieval *)

Definition DEFAULT_PAGE_SIZE : Z := 20.
Definition DEFAULT_CHUNK_SIZE : Z := 30000.

Record AnswerRecord : Type := {
  author_name : json;
  voteup_count : Z;
  favlists_count : Z;
  content_text : string
}.

(** The placeholder for an author without a name.  Its four characters lie
    outside the alphabet of this model; it stands here as the twelve bytes
    of its UTF-8 encoding, and nothing below looks at more than its being
    this one string, which is not empty. *)
Definition anonymous : string := "匿名用户".

(** The arguments from which the URL of a request is built: the question
    identifier and the [limit] and [offset] of the query.  The URL itself
    is outside the model: [urlencode] writes the query and [urljoin] puts
    the identifier, as it is given and without quoting, into the path under
    [API_ROOT], so that an identifier that is not a plain path segment can
    name another resource.  [req_question] is what the code hands to that
    assembly, not the address that results. *)
Record request : Type := {
  req_question : string;
  req_limit : Z;
  req_offset : Z
}.

(** The body of [fetch_answers] is a generator: a run of it is the sequence
    of the requests it sends and the records it yields, in order, with the
    way the run ends. *)
Inductive fetch_event : Type :=
| Requested (r : request)
| Yielded (a : AnswerRecord).

Definition gen (A : Type) : Type := (list fetch_event * outcome A)%type.

Definition gret {A : Type} (a : A) : gen A := ([], Returns a).

Definition gbind {A B : Type} (m : gen A) (k : A -> gen B) : gen B :=
  match m with
  | (t, Returns a) => let (t', r) := k a in ((t ++ t')%list, r)
  | (t, Raises e) => (t, Raises e)
  | (t, OutOfFuel) => (t, OutOfFuel)
  | (t, Unmodelled) => (t, Unmodelled)
  end.

Definition emit (ev : fetch_event) : gen unit := ([ev], Returns tt).

Definition lift {A : Type} (m : outcome A) : gen A := ([], m).

Notation "x <~ m ;; k" := (gbind m (fun x => k))
  (at level 61, m at next level, right associativity).
Notation "m ;;; k" := (gbind m (fun _ => k))
  (at level 61, right associativity).

Section Fetch.

Context {lib : PyLib}.

(** [urlopen] and the decoding of the body, for the request numbered [n]
    of a run (counted from 0): the decoded payload, or [None] for any
    failure, be it of the transport, a status other than 200 or a body that
    is not JSON. *)
Variable transport : nat -> request -> option json.

(** [parse_answer_text(raw_content)]; [feed] adds its argument to a
    [str]. *)
Definition parse_content (raw_content : json) : outcome string :=
  match raw_content with
  | JStr s => parse_answer_text s
  | _ => Raises TypeError
  end.

(** The body of [for answer in answers] up to the [yield]. *)
Definition make_record (answer : json) : outcome AnswerRecord :=
  a <- Py.get answer "author" JNull ;;
  let author := Py.or a (JDict []) in
  n <- Py.get author "name" JNull ;;
  let author_name := Py.or n (JStr anonymous) in
  v <- Py.get answer "voteup_count" (JInt 0) ;;
  voteup_count <- Py.int v ;;
  f <- Py.get answer "favlists_count" (JInt 0) ;;
  favlists_count <- Py.int f ;;
  c <- Py.get answer "content" JNull ;;
  let raw_content := Py.or c (JStr "") in
  parsed_content <- parse_content raw_content ;;
  Returns {| author_name := author_name;
             voteup_count := voteup_count;
             favlists_count := favlists_count;
             content_text := parsed_content |}.

(** [for answer in answers], with its [break]; the result is [collected]
    after the loop. *)
Fixpoint for_answers (answers : list json) (limit collected : Z) : gen Z :=
  match answers with
  | [] => gret collected
  | answer :: rest =>
      record <~ lift (make_record answer) ;;
      emit (Yielded record) ;;;
      let collected := (collected + 1)%Z in
      if (collected >=? limit)%Z then gret collected
      else for_answers rest limit collected
  end.

(** [while collected < limit]; [sent] counts the requests sent so far. *)
Fixpoint fetch_loop (fuel : nat) (question_id : string)
    (limit collected offset : Z) (sent : nat) : gen unit :=
  match fuel with
  | O => lift OutOfFuel
  | S fuel' =>
      if (collected <? limit)%Z then
        let current_limit := Z.min DEFAULT_PAGE_SIZE (limit - collected) in
        let req := {| req_question := question_id;
                      req_limit := current_limit;
                      req_offset := offset |} in
        emit (Requested req) ;;;
        match transport sent req with
        | None => lift (Raises RuntimeError)
        | Some payload =>
            answers <~ lift (Py.get payload "data" (JList [])) ;;
            if negb (Py.truthy answers) then gret tt
            else
              items <~ lift (Py.iter answers) ;;
              collected' <~ for_answers items limit collected ;;
              paging <~ lift (Py.get payload "paging" (JDict [])) ;;
              is_end <~ lift (Py.get paging "is_end" JNull) ;;
              if Py.truthy is_end then gret tt
              else fetch_loop fuel' question_id limit collected'
                     (offset + current_limit)%Z (S sent)
        end
      else gret tt
  end.

(** Every iteration that goes on has yielded a record, so the loop body
    runs at most [limit] times and the test once more. *)
Definition fetch_answers (question_id : string) (limit : Z) : gen unit :=
  fetch_loop (S (Z.to_nat limit)) question_id limit 0 0 0.

(** *** The writer *)

Inductive cell : Type :=
| Obj (v : json)
| Int (n : Z)
| Text (s : string).

Definition row_of (record : AnswerRecord) (content_chunks : list string)
  : list cell :=
  Obj record.(author_name) :: Int record.(voteup_count)
    :: Int record.(favlists_count) :: map Text content_chunks.

(** What a run of the program has done when it stops: the requests sent,
    the rows written, and the result. *)
Record run (A : Type) : Type := {
  network : list request;
  rows : list (list cell);
  result : outcome A
}.
Arguments network {A} r.
Arguments rows {A} r.
Arguments result {A} r.

(** [for record in records] of [write_answers_to_csv], pulling from the
    generator: the generator runs up to the [yield] of each record the
    writer asks for, and no further once the writer raises. *)
Fixpoint write_rows (records : list fetch_event) (ending : outcome unit)
    (chunk_size : Z) : run unit :=
  match records with
  | [] => {| network := []; rows := []; result := ending |}
  | Requested r :: rest =>
      let k := write_rows rest ending chunk_size in
      {| network := r :: k.(network); rows := k.(rows); result := k.(result) |}
  | Yielded record :: rest =>
      match chunk_text record.(content_text) chunk_size with
      | Returns content_chunks =>
          let k := write_rows rest ending chunk_size in
          {| network := k.(network);
             rows := row_of record content_chunks :: k.(rows);
             result := k.(result) |}
      | Raises e => {| network := []; rows := []; result := Raises e |}
      | OutOfFuel => {| network := []; rows := []; result := OutOfFuel |}
      | Unmodelled => {| network := []; rows := []; result := Unmodelled |}
      end
  end.

Definition write_answers_to_csv (records : gen unit) (chunk_size : Z)
  : run unit :=
  write_rows (fst records) (snd records) chunk_size.

(** The arguments that [parse_args] returns, but the output path. *)
Record Namespace : Type := {
  question : string;
  limit : Z;
  chunk_size : Z
}.

(** The [try] of [main]: status 0 after a normal end, status 1 for a
    [RuntimeError]; any other exception goes through. *)
Definition exit_status (ending : outcome unit) : outcome Z :=
  match ending with
  | Returns _ => Returns 0%Z
  | Raises RuntimeError => Returns 1%Z
  | Raises e => Raises e
  | OutOfFuel => OutOfFuel
  | Unmodelled => Unmodelled
  end.

(** [main] after [parse_args]. *)
Definition main (args : Namespace) : run Z :=
  let records := fetch_answers args.(question) args.(limit) in
  let w := write_answers_to_csv records args.(chunk_size) in
  {| network := w.(network);
     rows := w.(rows);
     result := exit_status w.(result) |}.

End Fetch.

Arguments network {A} r.
Arguments rows {A} r.
Arguments result {A} r.

(** ** The command line *)





(** * The vocabulary of the properties *)

(** ** Chunks *)

(** Every chunk but the last has length [n]. *)
Definition full_but_last (n : nat) (chunks : list string) : Prop :=
  forall i, S i < List.length chunks ->
            String.length (nth i chunks "") = n.

(** ** Suppressed elements *)

Definition ignored (tag : string) : bool := mem tag _IGNORED_TAGS.

(** [well_nested opened body]: the events of [body] close the [opened]
    ignored elements that are open when it starts, and every ignored
    element that they open, and never one more. *)
Fixpoint well_nested (opened : nat) (body : list event) : bool :=
  match body with
  | [] => (opened =? 0)%nat
  | StartTag tag :: rest =>
      if ignored tag then well_nested (S opened) rest
      else well_nested opened rest
  | EndTag tag :: rest =>
      if ignored tag then
        match opened with
        | O => false
        | S opened' => well_nested opened' rest
        end
      else well_nested opened rest
  | _ :: rest => well_nested opened rest
  end.

Definition nested_script : string := "<script><script>x</script>y</script>keep".

Definition two_paragraphs : string := "<p>a</p><p>b</p>".

(** The text [a], a blank line and [b]. *)
Definition a_blank_b : string := "a" ++ Str.nl ++ Str.nl ++ "b".

(** The two lines [a] and [b]. *)
Definition a_b : string := "a" ++ Str.nl ++ "b".

Definition paragraphs_and_breaks : string := "<p>a</p><br><br><p>b</p>".

Definition img_close_in_script : string := "<script></img>x</script>".

(** ** Lines *)

(** [s] begins or ends with white space. *)
Definition outer_space (s : string) : bool :=
  match Str.first_char s with Some c => Str.is_space c | None => false end
  || match Str.last_char s with Some c => Str.is_space c | None => false end.

(** [s] holds a line boundary. *)
Fixpoint has_break (s : string) : bool :=
  match s with
  | EmptyString => false
  | String c rest => Str.is_linebreak c || has_break rest
  end.

(** Two empty lines follow each other in [lines]. *)
Fixpoint adjacent_blank (lines : list string) : bool :=
  match lines with
  | a :: (b :: _) as rest =>
      (Str.is_empty a && Str.is_empty b) || adjacent_blank rest
  | _ => false
  end.

(** The lines of [r] are [r.splitlines()], and joining them with newlines
    gives [r] back; no two empty lines are adjacent; no line and not [r]
    itself begins or ends with white space. *)
Definition normal_form (r : string) : Prop :=
  Str.join Str.nl (Str.splitlines r) = r
  /\ adjacent_blank (Str.splitlines r) = false
  /\ Forall (fun line => outer_space line = false) (Str.splitlines r)
  /\ outer_space r = false.

(** A line as [get_text] keeps it: no line boundary inside, no white space
    at either end. *)
Definition clean (line : string) : Prop :=
  has_break line = false /\ outer_space line = false.

(** [lines] without its empty lines at the front. *)
Fixpoint drop_blank (lines : list string) : list string :=
  match lines with
  | [] => []
  | line :: rest => if Str.is_empty line then drop_blank rest else lines
  end.

(** [lines] without its empty lines at the back. *)
Fixpoint drop_blank_end (lines : list string) : list string :=
  match lines with
  | [] => []
  | line :: rest =>
      match drop_blank_end rest with
      | [] => if Str.is_empty line then [] else [line]
      | kept => line :: kept
      end
  end.

(** What [filter_lines] adds to [filtered_lines]. *)
Fixpoint collapse (lines : list string) (previous_blank : bool) : list string :=
  match lines with
  | [] => []
  | line :: rest =>
      if Str.is_empty line && previous_blank
      then collapse rest previous_blank
      else line :: collapse rest (Str.is_empty line)
  end.

(** What [get_text] returns, line by line. *)
Definition kept_lines (self : TextOnlyHTMLParser) : list string :=
  drop_blank_end (drop_blank
    (collapse (map Str.strip (Str.splitlines (Str.join "" self.(_parts))))
       false)).

(** ** Runs of the retrieval *)

(** The requests of a run, in order. *)
Definition requests (t : list fetch_event) : list request :=
  flat_map (fun ev => match ev with Requested r => [r] | Yielded _ => [] end) t.

(** The records a run yields, in order. *)
Definition yielded (t : list fetch_event) : list AnswerRecord :=
  flat_map (fun ev => match ev with Yielded a => [a] | Requested _ => [] end) t.

(** [collected] after the events of [t]. *)
Definition collected_in (t : list fetch_event) : Z :=
  Z.of_nat (List.length (yielded t)).

(** The records asked for by the requests of [t]. *)
Definition asked (t : list fetch_event) : Z :=
  fold_right (fun r total => (r.(req_limit) + total)%Z) 0%Z (requests t).

(** The page of [payload] is empty: [not answers]. *)
Definition empty_page (payload : json) : bool :=
  match Py.get payload "data" (JList []) with
  | Returns answers => negb (Py.truthy answers)
  | _ => false
  end.

(** The end flag of [payload] is set: [paging.get("is_end")]. *)
Definition end_flag (payload : json) : bool :=
  match Py.get payload "paging" (JDict []) with
  | Returns paging =>
      match Py.get paging "is_end" JNull with
      | Returns is_end => Py.truthy is_end
      | _ => false
      end
  | _ => false
  end.

(** After a response, may a request follow? may a record? *)
Definition goes_on (response : option json) : bool :=
  match response with
  | Some payload => negb (empty_page payload) && negb (end_flag payload)
  | None => false
  end.

Definition has_records (response : option json) : bool :=
  match response with
  | Some payload => negb (empty_page payload)
  | None => false
  end.

Section Protocol.

Variable transport : nat -> request -> option json.
Variable question_id : string.
Variable limit : Z.

(** [follows c o n more_pages more_records t]: the events of [t] are what
    the loop may do from a state with [c] records collected, offset [o]
    and [n] requests sent.  A request is sent only below the limit and
    only if the last response allows another page; it asks for
    [min(page_size, limit - collected)] records at the current offset.  A
    record is yielded only below the limit and only from a page that is
    not empty. *)
Fixpoint follows (c o : Z) (n : nat) (more_pages more_records : bool)
    (t : list fetch_event) : Prop :=
  match t with
  | [] => True
  | Requested r :: rest =>
      more_pages = true
      /\ (c < limit)%Z
      /\ r = {| req_question := question_id;
                req_limit := Z.min DEFAULT_PAGE_SIZE (limit - c);
                req_offset := o |}
      /\ follows c (o + r.(req_limit))%Z (S n)
           (goes_on (transport n r)) (has_records (transport n r)) rest
  | Yielded _ :: rest =>
      more_records = true
      /\ (c < limit)%Z
      /\ follows (c + 1)%Z o n more_pages more_records rest
  end.

End Protocol.

(** ** Servers and records *)

(** The question of the example in the documentation of the script. *)
Definition example_question : string := "1904446392564430091".

Definition get (question_id : string) (limit offset : Z) : request :=
  {| req_question := question_id; req_limit := limit; req_offset := offset |}.

Definition sample_answer : json :=
  JDict [("author", JDict [("name", JStr "A")]);
         ("voteup_count", JInt 3);
         ("favlists_count", JInt 1);
         ("content", JStr "<p>Hello</p>")].

(** A page of [n] records whose end flag is not set. *)
Definition page (n : Z) : json :=
  JDict [("data", JList (repeat sample_answer (Z.to_nat n)));
         ("paging", JDict [("is_end", JBool false)])].

(** A server with unlimited data: every request gets the number of records
    it asks for. *)
Definition unlimited_server (n : nat) (r : request) : option json :=
  Some (page r.(req_limit)).

(** A server that returns pages of 20 records up to offset 40, where the
    page is empty. *)
Definition forty_records_server (n : nat) (r : request) : option json :=
  Some (page (if (r.(req_offset) <? 40)%Z then 20 else 0)).

(** A server with a single record, whose page has no end flag. *)
Definition one_record_server (n : nat) (r : request) : option json :=
  Some (JDict [("data", JList [sample_answer])]).

(** A server with no record. *)
Definition empty_server (n : nat) (r : request) : option json :=
  Some (JDict [("data", JList [])]).

(** A member that is absent, or whose value is false in a condition. *)
Definition absent_or_empty (v : option json) : bool :=
  match v with
  | Some x => negb (Py.truthy x)
  | None => true
  end.

Definition default_record : AnswerRecord :=
  {| author_name := JStr anonymous;
     voteup_count := 0;
     favlists_count := 0;
     content_text := "" |}.

(** ** More vocabulary *)

(** Every character of [s] satisfies [p]. *)
Fixpoint all_chars (p : ascii -> bool) (s : string) : bool :=
  match s with
  | EmptyString => true
  | String c rest => p c && all_chars p rest
  end.

(** [s] holds neither ["<"] nor ["&"]. *)
Definition markup_free (s : string) : bool :=
  all_chars HTMLParser.is_text_char s.

(** The chunks of [text] by position: [k] slices of [n] characters from
    [start] on. *)
Fixpoint slices (k : nat) (text : string) (n start : Z) : list string :=
  match k with
  | O => []
  | S k' => Str.slice text start (start + n) :: slices k' text n (start + n)
  end.

(** The number of chunks of a text of [len] characters: [len / n] rounded
    up. *)
Definition chunk_count (len n : Z) : nat := Z.to_nat ((len + n - 1) / n).

(** A tag that is neither ignored nor a block tag. *)
Definition inline (tag : string) : bool :=
  negb (ignored tag) && negb (mem tag _BLOCK_TAGS).

Definition inline_event (ev : event) : bool :=
  match ev with
  | StartTag tag => inline tag
  | EndTag tag => inline tag
  | _ => false
  end.

(** The end tag of an ignored name. *)
Definition ignored_end (ev : event) : bool :=
  match ev with
  | EndTag tag => ignored tag
  | _ => false
  end.

(** The lines of [lines] that are not empty. *)
Definition nonblank (lines : list string) : list string :=
  filter (fun line => negb (Str.is_empty line)) lines.

(** [v] is a JSON object. *)
Definition is_dict (v : json) : bool :=
  match v with
  | JDict _ => true
  | _ => false
  end.

(** The author of a raw record does not make [make_record] raise: it is
    absent, or false in a condition, or an object. *)
Definition author_ok (members : list (string * json)) : bool :=
  match Py.lookup "author" members with
  | Some v => negb (Py.truthy v) || is_dict v
  | None => true
  end.

(** A value that [int] rejects with [TypeError]. *)
Definition not_a_number (v : json) : bool :=
  match v with
  | JNull | JList _ | JDict _ => true
  | _ => false
  end.

(** The paging of [payload] can be read and its end flag is not set. *)
Definition no_end_flag (payload : json) : Prop :=
  exists paging is_end,
    Py.get payload "paging" (JDict []) = Returns paging
    /\ Py.get paging "is_end" JNull = Returns is_end
    /\ Py.truthy is_end = false.

Section MoreVocabulary.

Context {lib : PyLib}.

(** A count that does not stop [make_record]: it is missing, or [int] reads
    it. *)
Definition count_ok (v : option json) : bool :=
  match v with
  | Some x => match Py.int x with Returns _ => true | _ => false end
  | None => true
  end.

(** A content that does not stop [make_record]: it is missing, or false in
    a condition, or a text for which the extractor returns. *)
Definition content_ok (v : option json) : bool :=
  match v with
  | Some x =>
      negb (Py.truthy x)
      || match parse_content x with Returns _ => true | _ => false end
  | None => true
  end.

(** [records] are the records of [answers], one for one. *)
Definition built (answers : list json) (records : list AnswerRecord) : Prop :=
  Forall2 (fun answer record => make_record answer = Returns record)
    answers records.

(** A page for the request [r]: as many records as [r] asks for, each of
    which [make_record] accepts, and no end flag. *)
Definition full_page (r : request) (payload : json) : Prop :=
  exists items records,
    Py.get payload "data" (JList []) = Returns (JList items)
    /\ Z.of_nat (List.length items) = r.(req_limit)
    /\ built items records
    /\ no_end_flag payload.

(** The row of [record]: its three fields, then chunks that make up its
    text. *)
Definition row_for (record : AnswerRecord) (row : list cell) : Prop :=
  exists chunks,
    row = row_of record chunks
    /\ String.concat "" chunks = record.(content_text)
    /\ chunks <> [].

End MoreVocabulary.

Section FetchVocabulary.

Context {lib : PyLib}.

(** An event that yields a record that [make_record] has built. *)
Definition from_record (ev : fetch_event) : Prop :=
  match ev with
  | Yielded a => exists answer, make_record answer = Returns a
  | Requested _ => False
  end.

End FetchVocabulary.

(** A server that answers the first request with a full page and fails
    afterwards. *)
Definition fails_after_one_page (n : nat) (r : request) : option json :=
  match n with
  | O => Some (page r.(req_limit))
  | S _ => None
  end.

(** A server whose body is a JSON list. *)
Definition list_server (n : nat) (r : request) : option json :=
  Some (JList []).

(** The record of [sample_answer]. *)
Definition sample_record : AnswerRecord :=
  {| author_name := JStr "A";
     voteup_count := 3;
     favlists_count := 1;
     content_text := "Hello" |}.

(** A server that sends three records, whatever the request asks for. *)
Definition three_records_server (n : nat) (r : request) : option json :=
  Some (page 3).

(** A record whose vote count is [null]. *)
Definition null_votes : list (string * json) := [("voteup_count", JNull)].

(** * Properties *)

(** ** Properties of strings *)

Section StringFacts.

Lemma append_empty_r (s : string) : s ++ "" = s.
Proof. induction s as [|c s IH]; simpl; [reflexivity | now rewrite IH]. Qed.

Lemma append_assoc (a b c : string) : (a ++ b) ++ c = a ++ (b ++ c).
Proof. induction a as [|x a IH]; simpl; [reflexivity | now rewrite IH]. Qed.

Lemma length_append (a b : string) :
  String.length (a ++ b) = String.length a + String.length b.
Proof. induction a as [|x a IH]; simpl; [reflexivity | now rewrite IH]. Qed.

Lemma drop_zero (s : string) : Str.drop 0 s = s.
Proof. destruct s; reflexivity. Qed.

Lemma drop_all (s : string) (k : nat) :
  String.length s <= k -> Str.drop k s = "".
Proof.
  revert k; induction s as [|c s IH]; intros [|k] H; simpl in *;
    try reflexivity; try lia.
  apply IH; lia.
Qed.

Lemma substring_drop (s : string) (a n : nat) :
  substring a n s ++ Str.drop (a + n) s = Str.drop a s.
Proof.
  revert a n; induction s as [|c s IH]; intros a n.
  - destruct a, n; reflexivity.
  - destruct a as [|a].
    + destruct n as [|n]; simpl; [reflexivity|].
      f_equal. exact (IH 0 n).
    + simpl. apply IH.
Qed.

Lemma length_substring (s : string) (a n : nat) :
  String.length (substring a n s) = Nat.min n (String.length s - a).
Proof.
  revert a n; induction s as [|c s IH]; intros a n.
  - destruct a, n; reflexivity.
  - destruct a as [|a].
    + destruct n as [|n]; simpl; [reflexivity|].
      rewrite (IH 0 n). rewrite Nat.sub_0_r. reflexivity.
    + simpl. apply IH.
Qed.

Lemma concat_cons (c : string) (l : list string) :
  String.concat "" (c :: l) = c ++ String.concat "" l.
Proof.
  destruct l as [|d l]; simpl; [now rewrite append_empty_r | reflexivity].
Qed.

End StringFacts.

(** ** The tokenizer ends *)

Section TokenizerFuel.

Import HTMLParser.

Lemma span_length (p : ascii -> bool) (s : string) :
  String.length (fst (Str.span p s)) + String.length (snd (Str.span p s))
  = String.length s.
Proof.
  induction s as [|c s IH]; [reflexivity|]. simpl.
  destruct (p c); [|reflexivity].
  destruct (Str.span p s) as [a b]. simpl in *. lia.
Qed.

Lemma span_rest_le (p : ascii -> bool) (s : string) :
  String.length (snd (Str.span p s)) <= String.length s.
Proof. pose proof (span_length p s). lia. Qed.

Lemma skip_space_le (s : string) :
  String.length (skip_space s) <= String.length s.
Proof. apply span_rest_le. Qed.

Lemma after_lt (c : ascii) (s rest : string) :
  Str.after c s = Some rest -> String.length rest < String.length s.
Proof.
  induction s as [|c' s IH]; [discriminate|]. simpl.
  destruct (Ascii.eqb c c'); intros H.
  - injection H as <-. lia.
  - specialize (IH H). lia.
Qed.

Lemma prefix_nocase_le (elem : string) :
  forall s rest : string,
    prefix_nocase elem s = Some rest -> String.length rest <= String.length s.
Proof.
  induction elem as [|a elem IH]; intros s rest H.
  - destruct s; injection H as <-; lia.
  - destruct s as [|b s]; [discriminate|]. simpl in H.
    destruct (Ascii.eqb a (Str.lower_char b)); [|discriminate].
    specialize (IH _ _ H). simpl. lia.
Qed.

Lemma match_close_lt (elem s rest : string) :
  match_close elem s = Some rest -> String.length rest < String.length s.
Proof.
  unfold match_close. destruct s as [|c1 [|c2 r]]; try discriminate.
  destruct (char_is c1 "<" && char_is c2 "/"); [|discriminate].
  destruct (prefix_nocase elem (skip_space r)) as [r1|] eqn:E; [|discriminate].
  apply prefix_nocase_le in E. pose proof (skip_space_le r).
  pose proof (skip_space_le r1).
  destruct (skip_space r1) as [|g rest']; [discriminate|].
  destruct (char_is g ">"); [|discriminate].
  intros H'. injection H' as <-. simpl in *. lia.
Qed.

Lemma find_close_lt (elem : string) (s : string) :
  forall data d rest : string,
    find_close elem data s = Some (d, rest) ->
    String.length rest < String.length s.
Proof.
  induction s as [|c s IH]; intros data d rest H; [discriminate|].
  cbn [find_close] in H.
  destruct (match_close elem (String c s)) as [past|] eqn:E.
  - injection H as _ <-. exact (match_close_lt _ _ _ E).
  - specialize (IH _ _ _ H). simpl. lia.
Qed.

Lemma parse_starttag_le (r : string) tags cdata rest :
  parse_starttag r = Some (tags, cdata, rest) ->
  String.length rest < String.length r.
Proof.
  unfold parse_starttag.
  pose proof (span_rest_le is_tagname_char r) as H1.
  destruct (Str.span is_tagname_char r) as [name r1].
  cbn [snd String.length] in H1.
  pose proof (span_rest_le (fun c => Str.is_space c || char_is c "/") r1) as H2.
  destruct (Str.span _ r1) as [tail r2]. cbn [snd String.length] in H2.
  destruct r2 as [|c rest']; [discriminate|].
  destruct (char_is c ">"); [|discriminate].
  destruct (Str.last_char tail) as [l|]; [destruct (char_is l "/")|];
    intros H; injection H as _ _ <-; cbn [String.length] in *; lia.
Qed.

Lemma endtagfind_lt (r name rest : string) :
  endtagfind r = Some (name, rest) -> String.length rest < String.length r.
Proof.
  unfold endtagfind. pose proof (skip_space_le r) as H1.
  destruct (skip_space r) as [|c r1'] eqn:E; [discriminate|].
  destruct (Str.is_alpha c); [|discriminate].
  pose proof (span_rest_le is_endname_char (String c r1')) as H2.
  destruct (Str.span is_endname_char (String c r1')) as [nm r2].
  cbn [snd String.length] in H2.
  pose proof (skip_space_le r2) as H3.
  destruct (skip_space r2) as [|g rest']; [discriminate|].
  destruct (char_is g ">"); [|discriminate].
  intros H. injection H as _ <-. simpl in *. lia.
Qed.

Lemma parse_endtag_lt (r : string) tags rest :
  parse_endtag r = Some (tags, rest) -> String.length rest < String.length r.
Proof.
  unfold parse_endtag.
  destruct (Str.after ">" r) as [past_gt|] eqn:E; [|discriminate].
  apply after_lt in E.
  destruct (endtagfind r) as [[name rest']|] eqn:F.
  - apply endtagfind_lt in F. intros H. injection H as _ <-. exact F.
  - destruct r as [|c r']; [discriminate|].
    destruct (Str.is_alpha c); intros H; injection H as _ <-; exact E.
Qed.

Lemma charref_le (r name rest : string) :
  charref r = Some (name, rest) -> String.length rest <= String.length r.
Proof.
  unfold charref. destruct r as [|c r']; [discriminate|].
  destruct (Str.is_digit c).
  - pose proof (span_rest_le Str.is_digit (String c r')) as H1.
    destruct (Str.span Str.is_digit (String c r')) as [digits r1].
    cbn [snd String.length] in H1. destruct r1 as [|t rest']; [discriminate|].
    destruct (Str.is_hexdigit t); [discriminate|].
    intros H. injection H as _ <-.
    match goal with
    | |- context [if ?b then _ else _] => destruct b
    end; cbn [String.length] in *; lia.
  - destruct (char_is c "x" || char_is c "X"); [|discriminate].
    pose proof (span_rest_le Str.is_hexdigit r') as H1.
    destruct (Str.span Str.is_hexdigit r') as [hex r1].
    cbn [snd String.length] in H1.
    destruct (Str.is_empty hex); [discriminate|].
    destruct r1 as [|t rest']; [discriminate|].
    intros H. injection H as _ <-.
    match goal with
    | |- context [if ?b then _ else _] => destruct b
    end; cbn [String.length] in *; lia.
Qed.

Lemma entityref_le (r name rest : string) :
  entityref r = Some (name, rest) -> String.length rest <= String.length r.
Proof.
  unfold entityref. pose proof (span_rest_le is_entity_char r) as H1.
  destruct (Str.span is_entity_char r) as [nm r1].
  cbn [snd String.length] in H1.
  destruct r1 as [|t rest']; [discriminate|].
  intros H. injection H as _ <-.
  match goal with
  | |- context [if ?b then _ else _] => destruct b
  end; cbn [String.length] in *; lia.
Qed.

Lemma bind_fuel {A B : Type} (m : outcome A) (f : A -> B) :
  m <> OutOfFuel -> (x <- m ;; Returns (f x)) <> OutOfFuel.
Proof. destruct m; simpl; congruence. Qed.

Lemma goahead_fuel (fuel : nat) :
  forall (cdata_elem : option string) (rawdata : string),
    String.length rawdata < fuel ->
    goahead fuel cdata_elem rawdata <> OutOfFuel.
Proof.
  induction fuel as [|fuel IH]; intros cdata_elem rawdata Hlen; [lia|].
  cbn [goahead]. destruct cdata_elem as [elem|].
  - destruct (find_close elem "" rawdata) as [[data rest]|] eqn:E;
      [|discriminate].
    apply find_close_lt in E. apply bind_fuel, IH. lia.
  - pose proof (span_length is_text_char rawdata) as Hspan.
    destruct (Str.span _ rawdata) as [data rest]. simpl in Hspan.
    destruct data as [|c data].
    + destruct rest as [|c [|c' r']]; try discriminate.
      simpl in Hspan.
      destruct (char_is c "<").
      * destruct (Str.is_alpha c').
        -- destruct (parse_starttag (String c' r'))
             as [[[tags cdata] rest]|] eqn:E; [|discriminate].
           apply parse_starttag_le in E. simpl in E.
           apply bind_fuel, IH. lia.
        -- destruct (char_is c' "/").
           ++ destruct (parse_endtag r') as [[tags rest]|] eqn:E;
                [|discriminate].
              apply parse_endtag_lt in E. apply bind_fuel, IH. lia.
           ++ destruct (char_is c' "!" || char_is c' "?"); [discriminate|].
              apply bind_fuel, IH. simpl. lia.
      * destruct (char_is c' "#").
        -- destruct (charref r') as [[name rest]|] eqn:E; [|discriminate].
           apply charref_le in E. apply bind_fuel, IH. lia.
        -- destruct (Str.is_alpha c').
           ++ destruct (entityref (String c' r')) as [[name rest]|] eqn:E;
                [|discriminate].
              apply entityref_le in E. simpl in E. apply bind_fuel, IH. lia.
           ++ apply bind_fuel, IH. simpl. lia.
    + apply bind_fuel, IH. simpl in Hspan. lia.
Qed.

Lemma feed_fuel (html : string) : feed html <> OutOfFuel.
Proof. apply goahead_fuel. lia. Qed.

(** The handlers return or raise the [ValueError] of [unescape]; so does
    the extractor, that never runs out of fuel. *)

Context {lib : PyLib}.

Lemma unescape_outcome (s : string) :
  (exists text, unescape s = Returns text)
  \/ (exists msg, unescape s = Raises (ValueError msg)).
Proof.
  unfold unescape. destruct (Str.contains "&" s); [|left; eauto].
  destruct (replace_charrefs s) as [text|msg]; [left | right]; eauto.
Qed.

Lemma append_outcome (self : TextOnlyHTMLParser) (s : string) :
  (exists self',
      (text <- unescape s ;; Returns (append self text)) = Returns self')
  \/ (exists msg,
         (text <- unescape s ;; Returns (append self text))
         = Raises (ValueError msg)).
Proof.
  destruct (unescape_outcome s) as [[text ->]|[msg ->]]; [left | right];
    simpl; eauto.
Qed.

Lemma handle_outcome (self : TextOnlyHTMLParser) (ev : event) :
  (exists self', handle self ev = Returns self')
  \/ (exists msg, handle self ev = Raises (ValueError msg)).
Proof.
  destruct ev as [tag|tag|data|name|name]; cbn [handle];
    [left; eauto | left; eauto | | |];
    unfold handle_data, handle_entityref, handle_charref;
    destruct (suppressed self); [left; eauto | | left; eauto | | left; eauto |];
    [destruct (negb (Str.is_empty (Str.strip data))); [|left; eauto]| |];
    apply append_outcome.
Qed.

Lemma handle_all_outcome (events : list event) :
  forall self : TextOnlyHTMLParser,
    (exists self', handle_all self events = Returns self')
    \/ (exists msg, handle_all self events = Raises (ValueError msg)).
Proof.
  induction events as [|ev events IH]; intros self; [left; simpl; eauto|].
  cbn [handle_all].
  destruct (handle_outcome self ev) as [[self' ->]|[msg ->]]; cbn [bind];
    [apply IH | right; eauto].
Qed.

(** The model of the tokenizer has no path that raises: where the
    tokenizer of the library may raise, on declarations for one, the model
    answers [Unmodelled]. *)
Lemma feed_outcome (html : string) (e : exn) :
  HTMLParser.feed html <> Raises e.
Proof.
  assert (H : forall fuel cdata s, HTMLParser.goahead fuel cdata s <> Raises e).
  { induction fuel as [|fuel IH]; intros cdata s; [discriminate|].
    assert (Hb : forall rest cd (f : list event -> list event),
               (x <- HTMLParser.goahead fuel cd rest ;; Returns (f x))
               <> Raises e).
    { intros rest cd f. specialize (IH cd rest).
      destruct (HTMLParser.goahead fuel cd rest); simpl; congruence. }
    cbn [HTMLParser.goahead].
    repeat match goal with
           | |- (x <- HTMLParser.goahead _ _ _ ;; Returns _) <> _ => apply Hb
           | |- context [match ?x with _ => _ end] => destruct x
           end; try discriminate. }
  apply H.
Qed.

Lemma parse_answer_text_fuel (html : string) :
  parse_answer_text html <> OutOfFuel.
Proof.
  unfold parse_answer_text. pose proof (feed_fuel html) as H.
  destruct (HTMLParser.feed html) as [events| | |]; simpl; try congruence.
  destruct (handle_all_outcome events __init__) as [[self' ->]|[msg ->]];
    discriminate.
Qed.

(** The only exception of the extractor, on the documents that the model
    of the tokenizer covers, is the [ValueError] of [unescape]. *)
Lemma parse_answer_text_raises (html : string) (e : exn) :
  parse_answer_text html = Raises e -> exists msg, e = ValueError msg.
Proof.
  unfold parse_answer_text. pose proof (feed_outcome html e) as H.
  destruct (HTMLParser.feed html) as [events| | |]; simpl; try congruence.
  destruct (handle_all_outcome events __init__) as [[self' ->]|[msg ->]];
    simpl; [discriminate|].
  intros E. injection E as <-. eauto.
Qed.

End TokenizerFuel.

(** ** The chunker: round trip *)

Section Chunker.

Lemma full_but_last_cons (n : nat) (c : string) (more : list string) :
  (more <> [] -> String.length c = n) ->
  full_but_last n more ->
  full_but_last n (c :: more).
Proof.
  intros Hc Hmore [|i] Hi; simpl in *.
  - apply Hc. destruct more; simpl in *; [lia | discriminate].
  - apply Hmore. lia.
Qed.

Lemma length_slice (text : string) (start n : Z) :
  (0 <= start)%Z -> (0 < n)%Z ->
  String.length (Str.slice text start (start + n)) =
  Nat.min (Z.to_nat n) (String.length text - Z.to_nat start).
Proof.
  intros Hs Hn. unfold Str.slice. rewrite length_substring.
  replace (start + n - start)%Z with n by lia. reflexivity.
Qed.

(** What the loop adds to [chunks] when it is entered at [start]. *)
Lemma chunk_loop_spec (text : string) (n : Z) (Hn : (0 < n)%Z) :
  forall (fuel : nat) (start : Z) (chunks : list string),
    (0 <= start)%Z ->
    0 < fuel ->
    String.length text < fuel + Z.to_nat start ->
    exists more,
      chunk_loop fuel text n start chunks = Returns (chunks ++ more)%list
      /\ String.concat "" more = Str.drop (Z.to_nat start) text
      /\ full_but_last (Z.to_nat n) more
      /\ (Z.to_nat start < String.length text ->
          more <> []
          /\ 1 <= String.length (last more "") <= Z.to_nat n)
      /\ (String.length text <= Z.to_nat start -> more = []).
Proof.
  induction fuel as [|fuel IH]; intros start chunks Hs Hpos Hfuel; [lia|].
  - simpl.
    destruct (Z.ltb_spec start (Z.of_nat (String.length text))) as [Hlt|Hge].
    + destruct (IH (start + n)%Z
                  (chunks ++ [Str.slice text start (start + n)])%list)
        as (more & Hrun & Hcat & Hfull & Hlast & Hnil); [lia | lia | lia |].
      set (c := Str.slice text start (start + n)) in *.
      assert (Hlen : String.length c =
                     Nat.min (Z.to_nat n) (String.length text - Z.to_nat start))
        by (apply length_slice; lia).
      assert (Hcases :
                Z.to_nat (start + n) < String.length text /\ more <> []
                \/ String.length text <= Z.to_nat (start + n) /\ more = []).
      { destruct (Nat.lt_ge_cases (Z.to_nat (start + n)) (String.length text))
          as [Hc|Hc].
        - left. split; [assumption | apply Hlast; assumption].
        - right. split; [assumption | apply Hnil; assumption]. }
      exists (c :: more). split; [|split; [|split; [|split]]].
      * rewrite Hrun, <- app_assoc. reflexivity.
      * rewrite concat_cons, Hcat. unfold c, Str.slice.
        replace (start + n - start)%Z with n by lia.
        replace (Z.to_nat (start + n)) with (Z.to_nat start + Z.to_nat n)
          by lia.
        apply substring_drop.
      * apply full_but_last_cons; [|exact Hfull].
        intros Hne. destruct Hcases as [[Hc _]|[_ Hc]]; [lia | contradiction].
      * intros _. split; [discriminate|].
        destruct Hcases as [[Hc Hne]|[Hc Hmore]].
        -- destruct more as [|d more']; [contradiction|].
           change (last (c :: d :: more') "") with (last (d :: more') "").
           apply Hlast. assumption.
        -- subst more. simpl. lia.
      * intros Hge. lia.
    + exists []. split; [|split; [|split; [|split]]].
      * now rewrite app_nil_r.
      * simpl. symmetry. apply drop_all. lia.
      * intros i Hi. simpl in Hi. lia.
      * intros Hlt. lia.
      * reflexivity.
Qed.

(** C1.  For every string [s] and every positive [n], [chunk_text s n]
    returns a sequence of chunks that concatenates back to [s]; every chunk
    except possibly the last has length exactly [n]; the last chunk has
    length between 1 and [n] when [s] is not empty; the sequence is never
    empty, and [chunk_text "" n] is the one-element sequence [[""]]. *)
Theorem chunk_text_round_trip (s : string) (n : Z) :
  (0 < n)%Z ->
  exists chunks,
    chunk_text s n = Returns chunks
    /\ String.concat "" chunks = s
    /\ full_but_last (Z.to_nat n) chunks
    /\ (s <> "" -> 1 <= String.length (last chunks "") <= Z.to_nat n)
    /\ chunks <> []
    /\ chunk_text "" n = Returns [""].
Proof.
  intros Hn. unfold chunk_text.
  destruct (Z.leb_spec n 0) as [Hle|_]; [lia|].
  destruct s as [|c s].
  - exists [""]. simpl. repeat split; try congruence.
    intros i Hi. simpl in Hi. lia.
  - cbn [Str.is_empty].
    destruct (chunk_loop_spec (String c s) n Hn
                (S (String.length (String c s))) 0 [])
      as (more & Hrun & Hcat & Hfull & Hlast & _); [lia | lia | simpl; lia |].
    exists more. simpl app in Hrun. rewrite Hrun.
    change (Z.to_nat 0) with 0 in *. rewrite drop_zero in Hcat.
    destruct Hlast as [Hne Hl]; [simpl; lia|].
    repeat split; try assumption; try lia.
Qed.

Lemma chunk_text_round_trip_witness :
  (0 < 3)%Z /\
  exists chunks,
    chunk_text "abcde" 3 = Returns chunks
    /\ String.concat "" chunks = "abcde"
    /\ full_but_last (Z.to_nat 3) chunks
    /\ ("abcde" <> "" -> 1 <= String.length (last chunks "") <= Z.to_nat 3)
    /\ chunks <> []
    /\ chunk_text "" 3 = Returns [""].
Proof.
  split; [lia | apply (chunk_text_round_trip "abcde" 3); lia].
Defined.

Example chunk_text_boundary :
  chunk_text "abcdef" 3 = Returns ["abc"; "def"]
  /\ chunk_text "abcde" 3 = Returns ["abc"; "de"].
Proof. split; reflexivity. Qed.

End Chunker.

(** ** The text extractor: suppression *)

Section Suppression.

Context {lib : PyLib}.

Lemma suppressed_pos (self : TextOnlyHTMLParser) :
  (0 < self.(_ignored_depth))%Z -> suppressed self = true.
Proof.
  intros H. unfold suppressed.
  destruct (Z.eqb_spec self.(_ignored_depth) 0); [lia | reflexivity].
Qed.

Lemma suppressed_zero (self : TextOnlyHTMLParser) :
  self.(_ignored_depth) = 0%Z -> suppressed self = false.
Proof. intros H. unfold suppressed. now rewrite H. Qed.

Lemma handle_all_app (self : TextOnlyHTMLParser) (a b : list event) :
  handle_all self (a ++ b)
  = (self' <- handle_all self a ;; handle_all self' b).
Proof.
  revert self. induction a as [|ev a IH]; intros self; [reflexivity|].
  cbn [app handle_all]. destruct (handle self ev); cbn [bind];
    [apply IH | reflexivity..].
Qed.

(** While the depth is positive no handler calls [unescape]: the handlers
    of text return the parser as it is. *)
Lemma handle_suppressed (self : TextOnlyHTMLParser) (ev : event) :
  (0 < self.(_ignored_depth))%Z ->
  handle self ev
  = Returns match ev with
            | StartTag tag => handle_starttag self tag
            | EndTag tag => handle_endtag self tag
            | _ => self
            end.
Proof.
  intros H. pose proof (suppressed_pos self H) as Hs.
  destruct ev as [tag|tag|data|name|name]; cbn [handle];
    unfold handle_data, handle_entityref, handle_charref; rewrite ?Hs;
    reflexivity.
Qed.

(** While the depth is positive no handler touches the output. *)
Lemma handle_suppressed_parts (self : TextOnlyHTMLParser) (ev : event) :
  (0 < self.(_ignored_depth))%Z ->
  exists self',
    handle self ev = Returns self' /\ self'.(_parts) = self.(_parts).
Proof.
  intros H. rewrite (handle_suppressed self ev H). eexists.
  split; [reflexivity|]. pose proof (suppressed_pos self H) as Hs.
  destruct ev as [tag|tag|data|name|name]; try reflexivity;
    unfold handle_starttag, handle_endtag; rewrite Hs;
    destruct (mem tag _IGNORED_TAGS); reflexivity.
Qed.

(** At depth zero the [ValueError] of [unescape] leaves the handler, and
    with it the extractor. *)
Lemma unescape_error_is_passed_on (self : TextOnlyHTMLParser)
    (name msg : string) :
  self.(_ignored_depth) = 0%Z ->
  replace_charrefs ("&#" ++ name ++ ";") = inr msg ->
  handle_charref self name = Raises (ValueError msg).
Proof.
  intros Hd Hmsg. unfold handle_charref, unescape.
  rewrite (suppressed_zero self Hd).
  change (Str.contains "&" ("&#" ++ name ++ ";")) with true.
  now rewrite Hmsg.
Qed.

Lemma handle_starttag_depth_nonneg (self : TextOnlyHTMLParser) (tag : string) :
  (0 <= self.(_ignored_depth))%Z ->
  (0 <= (handle_starttag self tag).(_ignored_depth))%Z.
Proof.
  intros H. unfold handle_starttag, suppressed, append.
  repeat match goal with
    | |- context [if ?b then _ else _] => destruct b; simpl
    end; lia.
Qed.

Lemma handle_endtag_depth_nonneg (self : TextOnlyHTMLParser) (tag : string) :
  (0 <= self.(_ignored_depth))%Z ->
  (0 <= (handle_endtag self tag).(_ignored_depth))%Z.
Proof.
  intros H. unfold handle_endtag, suppressed, append.
  destruct (Z.eqb_spec self.(_ignored_depth) 0) as [E|E]; simpl;
    repeat match goal with
      | |- context [if ?b then _ else _] => destruct b; simpl
      end; lia.
Qed.

(** The handlers of text leave the depth as it is. *)
Lemma handle_text_depth (self self' : TextOnlyHTMLParser) (s : string) :
  (text <- unescape s ;; Returns (append self text)) = Returns self' ->
  self'.(_ignored_depth) = self.(_ignored_depth).
Proof.
  destruct (unescape s) as [text| | |]; simpl; try discriminate.
  intros H. injection H as <-. reflexivity.
Qed.

Lemma handle_depth_nonneg (self self' : TextOnlyHTMLParser) (ev : event) :
  (0 <= self.(_ignored_depth))%Z ->
  handle self ev = Returns self' ->
  (0 <= self'.(_ignored_depth))%Z.
Proof.
  intros H. destruct ev as [tag|tag|data|name|name]; cbn [handle].
  - intros E. injection E as <-. now apply handle_starttag_depth_nonneg.
  - intros E. injection E as <-. now apply handle_endtag_depth_nonneg.
  - unfold handle_data. destruct (suppressed self);
      [intros E; injection E as <-; exact H|].
    destruct (negb (Str.is_empty (Str.strip data)));
      [|intros E; injection E as <-; exact H].
    intros E. now rewrite (handle_text_depth _ _ _ E).
  - unfold handle_entityref. destruct (suppressed self);
      [intros E; injection E as <-; exact H|].
    intros E. now rewrite (handle_text_depth _ _ _ E).
  - unfold handle_charref. destruct (suppressed self);
      [intros E; injection E as <-; exact H|].
    intros E. now rewrite (handle_text_depth _ _ _ E).
Qed.

Lemma handle_all_depth_nonneg (events : list event) :
  forall self self' : TextOnlyHTMLParser,
    (0 <= self.(_ignored_depth))%Z ->
    handle_all self events = Returns self' ->
    (0 <= self'.(_ignored_depth))%Z.
Proof.
  induction events as [|ev events IH]; intros self self' H; cbn [handle_all].
  - intros E. injection E as <-. exact H.
  - destruct (handle self ev) as [next| | |] eqn:E; cbn [bind];
      try discriminate.
    apply IH. exact (handle_depth_nonneg self next ev H E).
Qed.

(** A well-nested body that starts under [opened] open ignored elements,
    themselves inside a suppressed region, leaves the output as it is and
    closes the [opened] elements. *)
Lemma handle_all_well_nested (body : list event) :
  forall (opened : nat) (self : TextOnlyHTMLParser),
    well_nested opened body = true ->
    (Z.of_nat opened < self.(_ignored_depth))%Z ->
    handle_all self body =
    Returns {| _parts := self.(_parts);
               _ignored_depth := (self.(_ignored_depth) - Z.of_nat opened)%Z |}.
Proof.
  induction body as [|ev body IH]; intros opened self Hw Hd.
  - simpl in *. apply Nat.eqb_eq in Hw. subst opened. destruct self; simpl.
    do 2 f_equal. lia.
  - assert (Hpos : (0 < self.(_ignored_depth))%Z) by lia.
    pose proof (suppressed_pos self Hpos) as Hs.
    cbn [handle_all]. rewrite (handle_suppressed self ev Hpos). cbn [bind].
    destruct ev as [tag|tag|data|name|name]; cbn [well_nested] in *;
      try (apply IH; assumption).
    + unfold handle_starttag. fold (ignored tag). destruct (ignored tag).
      * rewrite (IH (S opened)); simpl; [do 2 f_equal; lia | assumption | lia].
      * rewrite Hs. apply IH; assumption.
    + unfold handle_endtag. fold (ignored tag). rewrite Hs.
      destruct (ignored tag); simpl.
      * destruct opened as [|opened']; [discriminate|].
        rewrite (IH opened'); simpl; [do 2 f_equal; lia | assumption | lia].
      * apply IH; assumption.
Qed.

(** An ignored element, from its start tag to the end tag that closes it,
    leaves the parser as it found it. *)
Lemma ignored_element_is_skipped (self : TextOnlyHTMLParser)
    (tag tag' : string) (body : list event) :
  (0 <= self.(_ignored_depth))%Z ->
  ignored tag = true -> ignored tag' = true ->
  well_nested 0 body = true ->
  handle_all self (StartTag tag :: body ++ [EndTag tag']) = Returns self.
Proof.
  intros Hd Ht Ht' Hw.
  cbn [handle_all handle bind]. rewrite handle_all_app.
  unfold handle_starttag at 1. fold (ignored tag). rewrite Ht.
  rewrite (handle_all_well_nested body 0) by (try assumption; simpl; lia).
  cbn [bind handle_all handle].
  unfold handle_endtag. fold (ignored tag'). rewrite Ht'.
  rewrite suppressed_pos by (simpl; lia).
  destruct self; simpl. do 2 f_equal. lia.
Qed.

End Suppression.

(** C5.  The suppression depth is never negative: every handler that
    returns keeps [0 <= _ignored_depth], and a handler that does not return
    raises the [ValueError] of [unescape], which ends the pass; so the
    invariant holds after any sequence of events of a pass.  The start tag
    of an ignored element adds exactly one; an end tag of an ignored name
    that arrives at a positive depth takes exactly one away, so that the tag
    closing an element restores the parser it was opened in; and an end tag
    that arrives at depth zero leaves the depth at zero. *)
Theorem suppression_depth_invariant (lib : PyLib) :
  (forall self ev,
      (0 <= self.(_ignored_depth))%Z ->
      match handle self ev with
      | Returns self' => (0 <= self'.(_ignored_depth))%Z
      | Raises e => exists msg, e = ValueError msg
      | OutOfFuel | Unmodelled => False
      end)
  /\ (forall events,
         match handle_all __init__ events with
         | Returns self' => (0 <= self'.(_ignored_depth))%Z
         | Raises e => exists msg, e = ValueError msg
         | OutOfFuel | Unmodelled => False
         end)
  /\ (forall self tag,
         (0 <= self.(_ignored_depth))%Z ->
         (0 <= (handle_starttag self tag).(_ignored_depth))%Z
         /\ (0 <= (handle_endtag self tag).(_ignored_depth))%Z)
  /\ (forall self tag,
         ignored tag = true ->
         (handle_starttag self tag).(_ignored_depth)
         = (self.(_ignored_depth) + 1)%Z)
  /\ (forall self tag,
         ignored tag = true -> (0 < self.(_ignored_depth))%Z ->
         (handle_endtag self tag).(_ignored_depth)
         = (self.(_ignored_depth) - 1)%Z)
  /\ (forall self tag,
         ignored tag = true -> (0 <= self.(_ignored_depth))%Z ->
         handle_endtag (handle_starttag self tag) tag = self)
  /\ (forall self tag,
         self.(_ignored_depth) = 0%Z ->
         (handle_endtag self tag).(_ignored_depth) = 0%Z).
Proof.
  split; [|split; [|split; [|split; [|split; [|split]]]]].
  - intros self ev Hd.
    destruct (handle_outcome self ev) as [[self' E]|[msg E]]; rewrite E;
      [exact (handle_depth_nonneg self self' ev Hd E) | eauto].
  - intros events.
    destruct (handle_all_outcome events __init__) as [[self' E]|[msg E]];
      rewrite E; [|eauto].
    apply (handle_all_depth_nonneg events __init__ self'); [simpl; lia|exact E].
  - intros self tag Hd.
    split; [now apply handle_starttag_depth_nonneg
           | now apply handle_endtag_depth_nonneg].
  - intros self tag Ht. unfold handle_starttag. fold (ignored tag).
    now rewrite Ht.
  - intros self tag Ht Hd. unfold handle_endtag. fold (ignored tag).
    now rewrite Ht, suppressed_pos.
  - intros self tag Ht Hd.
    pose proof (ignored_element_is_skipped self tag tag [] Hd Ht Ht eq_refl)
      as H.
    cbn [app handle_all handle bind] in H. now injection H.
  - intros self tag Hd. unfold handle_endtag, append.
    rewrite (suppressed_zero self Hd). cbn [andb].
    destruct (mem tag _BLOCK_TAGS); simpl; assumption.
Qed.

Lemma suppression_depth_invariant_witness :
  ignored "img" = true
  /\ forall lib : PyLib,
      (0 <= (handle_starttag __init__ "img").(_ignored_depth))%Z
      /\ handle_endtag (handle_starttag __init__ "img") "img" = __init__
      /\ (handle_endtag __init__ "img").(_ignored_depth) = 0%Z.
Proof.
  split; [reflexivity|]. intros lib.
  destruct (suppression_depth_invariant lib)
    as (H1 & _ & _ & _ & _ & H5 & H6).
  split; [exact (H1 __init__ (StartTag "img") ltac:(simpl; lia))|].
  split; [apply H5; [reflexivity | simpl; lia] | apply H6; reflexivity].
Defined.

(** C2, as the code has it.  Whatever the events, an ignored element leaves
    the parser as it found it, from its start tag to the end tag that closes
    it; every handler called at a positive depth returns and adds nothing to
    the output, and character data that arrives there is dropped.
    [parse_answer_text "<script>evil()</script>keep"] returns ["keep"].  On
    the nested input the tokenizer reads the content of [script] as raw text
    up to the first [</script>]: [x] is suppressed, [y] follows the element
    and is kept, and the call returns ["ykeep"]. *)
Theorem extractor_suppression (lib : PyLib) :
  (forall self tag tag' body,
      (0 <= self.(_ignored_depth))%Z ->
      ignored tag = true -> ignored tag' = true ->
      well_nested 0 body = true ->
      handle_all self (StartTag tag :: body ++ [EndTag tag']) = Returns self)
  /\ (forall self ev,
         (0 < self.(_ignored_depth))%Z ->
         exists self',
           handle self ev = Returns self'
           /\ self'.(_parts) = self.(_parts))
  /\ (forall self data,
         (0 < self.(_ignored_depth))%Z ->
         handle_data self data = Returns self)
  /\ parse_answer_text "<script>evil()</script>keep" = Returns "keep"
  /\ HTMLParser.feed nested_script
     = Returns [StartTag "script"; Data "<script>x"; EndTag "script";
                Data "y"; EndTag "script"; Data "keep"]
  /\ parse_answer_text nested_script = Returns "ykeep"
  /\ Str.contains "x" "ykeep" = false.
Proof.
  split; [|split; [|split; [|repeat split]]].
  - intros self tag tag' body. apply ignored_element_is_skipped.
  - apply handle_suppressed_parts.
  - intros self data Hd. unfold handle_data. now rewrite suppressed_pos.
Qed.

Lemma extractor_suppression_witness :
  well_nested 0 [StartTag "svg"; Data "x"; EndTag "img"] = true
  /\ forall lib : PyLib,
      handle_all __init__
        (StartTag "figure" :: [StartTag "svg"; Data "x"; EndTag "img"]
           ++ [EndTag "figure"]) = Returns __init__.
Proof.
  split; [reflexivity|]. intros lib.
  apply (proj1 (extractor_suppression lib)); first [reflexivity | simpl; lia].
Defined.

(** C2 as stated fails on the nested input: [y] reaches the output. *)
Lemma nested_script_leaks_y :
  (forall lib : PyLib, parse_answer_text nested_script = Returns "ykeep")
  /\ Str.contains "y" "ykeep" = true.
Proof. split; [intros lib|]; reflexivity. Qed.

(** C3, as the code has it.  For ["<p>a</p><p>b</p>"] the two opening and
    the two closing tags each add a newline to the output buffer, and
    [parse_answer_text] returns the three lines [a], an empty line and [b]:
    the two newlines between the paragraphs are one blank line, which the
    collapsing of blank lines keeps. *)
Theorem block_newlines_of_two_paragraphs (lib : PyLib) :
  HTMLParser.feed two_paragraphs
  = Returns [StartTag "p"; Data "a"; EndTag "p";
             StartTag "p"; Data "b"; EndTag "p"]
  /\ handle_all __init__ [StartTag "p"; Data "a"; EndTag "p";
                          StartTag "p"; Data "b"; EndTag "p"]
     = Returns {| _parts := [Str.nl; "a"; Str.nl; Str.nl; "b"; Str.nl];
                  _ignored_depth := 0 |}
  /\ parse_answer_text two_paragraphs = Returns a_blank_b
  /\ Str.splitlines a_blank_b = ["a"; ""; "b"].
Proof. repeat split. Qed.

(** C3 as stated fails: the result is not [a], a newline and [b]. *)
Lemma two_paragraphs_keep_a_blank_line :
  (forall lib : PyLib, parse_answer_text two_paragraphs = Returns a_blank_b)
  /\ String.eqb a_blank_b ("a" ++ Str.nl ++ "b") = false.
Proof. split; [intros lib|]; reflexivity. Qed.

(** C10, as the code has it.  At a positive depth [handle_endtag] takes one
    from the depth for an end tag of any ignored name, whichever tag opened
    the suppression: for ["<svg></img>x</svg>"] the tag [</img>] ends the
    suppression that [<svg>] opened, and [x] is the output.  Inside [script]
    the tokenizer delivers [</img>x] as character data, not as an end tag:
    the suppression lasts up to [</script>] and the output is empty. *)
Theorem any_ignored_end_tag_decrements (lib : PyLib) :
  (forall self tag,
      (0 < self.(_ignored_depth))%Z -> ignored tag = true ->
      handle_endtag self tag
      = {| _parts := self.(_parts);
           _ignored_depth := (self.(_ignored_depth) - 1)%Z |})
  /\ HTMLParser.feed "<svg></img>x</svg>"
     = Returns [StartTag "svg"; EndTag "img"; Data "x"; EndTag "svg"]
  /\ parse_answer_text "<svg></img>x</svg>" = Returns "x"
  /\ HTMLParser.feed img_close_in_script
     = Returns [StartTag "script"; Data "</img>x"; EndTag "script"]
  /\ parse_answer_text img_close_in_script = Returns "".
Proof.
  split; [|repeat split].
  intros self tag Hd Ht. unfold handle_endtag. fold (ignored tag).
  now rewrite Ht, suppressed_pos.
Qed.

Lemma any_ignored_end_tag_decrements_witness :
  ignored "img" = true
  /\ forall lib : PyLib,
      handle_endtag (handle_starttag __init__ "script") "img" = __init__.
Proof.
  split; [reflexivity|]. intros lib.
  apply (proj1 (any_ignored_end_tag_decrements lib));
    [simpl; lia | reflexivity].
Defined.

(** C10 as stated fails on its example: [x] does not reach the output. *)
Lemma img_close_in_script_is_data :
  (forall lib : PyLib, parse_answer_text img_close_in_script = Returns "")
  /\ Str.contains "x" "" = false.
Proof. split; [intros lib|]; reflexivity. Qed.

(** ** The text extractor: post-processing *)

Section PostProcessing.

Lemma is_empty_eq (s : string) : Str.is_empty s = true -> s = "".
Proof. destruct s; [reflexivity | discriminate]. Qed.

Lemma outer_space_cons (c : string) :
  outer_space c = false ->
  match c with
  | EmptyString => True
  | String x _ => Str.is_space x = false
  end.
Proof.
  destruct c as [|x c]; [trivial|]. unfold outer_space. simpl Str.first_char.
  intros H. apply Bool.orb_false_iff in H. tauto.
Qed.

Lemma outer_space_last (s : string) :
  outer_space s = false ->
  match Str.last_char s with
  | Some c => Str.is_space c = false
  | None => True
  end.
Proof.
  unfold outer_space. intros H. apply Bool.orb_false_iff in H.
  destruct H as [_ H]. destruct (Str.last_char s); [exact H | trivial].
Qed.

(** *** [lstrip], [rstrip], [strip] *)

Lemma lstrip_first (s : string) :
  match Str.first_char (Str.lstrip s) with
  | Some c => Str.is_space c = false
  | None => True
  end.
Proof.
  induction s as [|c s IH]; simpl; [trivial|].
  destruct (Str.is_space c) eqn:E; [exact IH | simpl; exact E].
Qed.

Lemma rstrip_last (s : string) :
  match Str.last_char (Str.rstrip s) with
  | Some c => Str.is_space c = false
  | None => True
  end.
Proof.
  induction s as [|c s IH]; simpl; [trivial|].
  destruct (Str.rstrip s) as [|d r] eqn:E; simpl.
  - destruct (Str.is_space c) eqn:Ec; simpl; [trivial | exact Ec].
  - exact IH.
Qed.

Lemma rstrip_first (s : string) :
  match Str.first_char s with
  | Some c => Str.is_space c = false
  | None => True
  end ->
  match Str.first_char (Str.rstrip s) with
  | Some c => Str.is_space c = false
  | None => True
  end.
Proof.
  destruct s as [|c s]; simpl; [trivial|]. intros E. rewrite E.
  rewrite Bool.andb_false_r. simpl. exact E.
Qed.

Lemma outer_space_strip (s : string) : outer_space (Str.strip s) = false.
Proof.
  unfold outer_space, Str.strip.
  pose proof (rstrip_first _ (lstrip_first s)) as Hf.
  pose proof (rstrip_last (Str.lstrip s)) as Hl.
  destruct (Str.first_char _); [rewrite Hf|];
    destruct (Str.last_char _); try rewrite Hl; reflexivity.
Qed.

Lemma has_break_lstrip (s : string) :
  has_break s = false -> has_break (Str.lstrip s) = false.
Proof.
  induction s as [|c s IH]; simpl; [trivial|]. intros H.
  apply Bool.orb_false_iff in H. destruct H as [Hc Hs].
  destruct (Str.is_space c); [auto | simpl; now rewrite Hc, Hs].
Qed.

Lemma has_break_rstrip (s : string) :
  has_break s = false -> has_break (Str.rstrip s) = false.
Proof.
  induction s as [|c s IH]; simpl; [trivial|]. intros H.
  apply Bool.orb_false_iff in H. destruct H as [Hc Hs].
  destruct (Str.is_empty (Str.rstrip s) && Str.is_space c); simpl;
    [reflexivity | now rewrite Hc, IH].
Qed.

Lemma clean_strip (s : string) : has_break s = false -> clean (Str.strip s).
Proof.
  intros H. split; [|apply outer_space_strip].
  apply has_break_rstrip, has_break_lstrip, H.
Qed.

Lemma rstrip_fixed (s : string) :
  match Str.last_char s with
  | Some c => Str.is_space c = false
  | None => True
  end ->
  Str.rstrip s = s.
Proof.
  induction s as [|c s IH]; [reflexivity|].
  destruct s as [|d s'].
  - simpl. intros E. now rewrite E.
  - intros H. change (Str.last_char (String c (String d s')))
      with (Str.last_char (String d s')) in H.
    specialize (IH H). cbn [Str.rstrip] in *. rewrite IH. reflexivity.
Qed.

Lemma rstrip_app (a b : string) :
  Str.rstrip (a ++ b) =
  if Str.is_empty (Str.rstrip b) then Str.rstrip a else a ++ Str.rstrip b.
Proof.
  induction a as [|c a IH].
  - simpl. destruct (Str.rstrip b); reflexivity.
  - change (String c a ++ b) with (String c (a ++ b)).
    cbn [Str.rstrip]. rewrite IH.
    destruct (Str.rstrip b) as [|d r] eqn:E; [reflexivity|].
    cbn [Str.is_empty].
    destruct a; reflexivity.
Qed.

(** *** [splitlines] *)

Lemma has_break_app (a b : string) :
  has_break (a ++ b) = has_break a || has_break b.
Proof.
  induction a as [|c a IH]; simpl; [reflexivity|].
  now rewrite IH, Bool.orb_assoc.
Qed.

Lemma splitlines_from_clean (n : nat) :
  forall (s cur : string),
    String.length s <= n ->
    has_break cur = false ->
    Forall (fun line => has_break line = false) (Str.splitlines_from cur s).
Proof.
  induction n as [|n IH]; intros s cur Hn Hcur.
  - destruct s; [|simpl in Hn; lia]. simpl.
    destruct (Str.is_empty cur); constructor; [assumption | constructor].
  - destruct s as [|c s]; simpl.
    + destruct (Str.is_empty cur); constructor; [assumption | constructor].
    + simpl in Hn. destruct (Str.is_linebreak c) eqn:Ec.
      * constructor; [assumption|].
        destruct s as [|c' s'];
          [constructor|].
        destruct (Ascii.eqb c Str.CR && Ascii.eqb c' Str.LF);
          apply IH; simpl in *; try lia; reflexivity.
      * apply IH; [lia|]. rewrite has_break_app, Hcur. simpl.
        now rewrite Ec.
Qed.

Lemma splitlines_clean (s : string) :
  Forall (fun line => has_break line = false) (Str.splitlines s).
Proof.
  apply (splitlines_from_clean (String.length s)); [lia | reflexivity].
Qed.

Lemma splitlines_from_line (l s cur : string) :
  has_break l = false ->
  Str.splitlines_from cur (l ++ s) = Str.splitlines_from (cur ++ l) s.
Proof.
  revert cur; induction l as [|c l IH]; intros cur H.
  - now rewrite append_empty_r.
  - simpl in H. apply Bool.orb_false_iff in H. destruct H as [Hc Hl].
    change (String c l ++ s) with (String c (l ++ s)).
    cbn [Str.splitlines_from]. rewrite Hc, (IH _ Hl), append_assoc.
    reflexivity.
Qed.

Lemma splitlines_from_nl (s cur : string) :
  Str.splitlines_from cur (Str.nl ++ s)
  = cur :: Str.splitlines_from "" s.
Proof. destruct s; reflexivity. Qed.

(** *** Joining lines *)

Lemma join_cons (sep x y : string) (l : list string) :
  Str.join sep (x :: y :: l) = x ++ sep ++ Str.join sep (y :: l).
Proof. reflexivity. Qed.

Lemma lstrip_join (lines : list string) :
  Forall clean lines ->
  Str.lstrip (Str.join Str.nl lines) = Str.join Str.nl (drop_blank lines).
Proof.
  induction 1 as [|line rest [_ Hline] Hrest IH]; [reflexivity|].
  destruct line as [|c line].
  - cbn [drop_blank Str.is_empty]. rewrite <- IH.
    destruct rest as [|y rest]; reflexivity.
  - cbn [drop_blank Str.is_empty].
    apply outer_space_cons in Hline.
    destruct rest as [|y rest]; simpl; now rewrite Hline.
Qed.

(** The last line that [drop_blank_end] keeps is not empty. *)
Lemma drop_blank_end_last (lines : list string) :
  drop_blank_end lines = []
  \/ Str.is_empty (last (drop_blank_end lines) "") = false.
Proof.
  induction lines as [|line rest IH]; [now left|].
  cbn [drop_blank_end].
  destruct (drop_blank_end rest) as [|k kept].
  - destruct (Str.is_empty line) eqn:E; [now left | right; exact E].
  - right. destruct IH as [IH|IH]; [discriminate | exact IH].
Qed.

Lemma join_nonempty (lines : list string) :
  lines <> [] ->
  Str.is_empty (last lines "") = false ->
  Str.is_empty (Str.join Str.nl lines) = false.
Proof.
  destruct lines as [|x [|y l]]; [congruence | simpl; auto |].
  intros _ _. rewrite join_cons. destruct x; reflexivity.
Qed.

Lemma rstrip_join (lines : list string) :
  Forall clean lines ->
  Str.rstrip (Str.join Str.nl lines)
  = Str.join Str.nl (drop_blank_end lines).
Proof.
  induction 1 as [|line rest [_ Hline] Hrest IH]; [reflexivity|].
  assert (Hfix : Str.rstrip line = line)
    by (apply rstrip_fixed, outer_space_last, Hline).
  destruct rest as [|y rest].
  - cbn [drop_blank_end Str.join String.concat]. rewrite Hfix.
    destruct line; reflexivity.
  - rewrite join_cons, rstrip_app, rstrip_app, IH.
    cbn [drop_blank_end] in *.
    destruct (drop_blank_end_last (y :: rest)) as [E|E];
      cbn [drop_blank_end] in E.
    + rewrite E. simpl Str.is_empty. cbn [Str.rstrip Str.nl].
      simpl. rewrite Hfix. destruct line; reflexivity.
    + destruct (match drop_blank_end rest with
                | [] => if Str.is_empty y then [] else [y]
                | k :: kept => y :: k :: kept
                end) as [|k kept] eqn:D.
      * simpl. rewrite Hfix. destruct line; reflexivity.
      * rewrite (join_nonempty (k :: kept)) by (congruence || exact E).
        assert (Hn : Str.is_empty (Str.nl ++ Str.join Str.nl (k :: kept))
                     = false) by reflexivity.
        rewrite Hn. reflexivity.
Qed.

Lemma strip_join (lines : list string) :
  Forall clean lines ->
  Str.strip (Str.join Str.nl lines)
  = Str.join Str.nl (drop_blank_end (drop_blank lines)).
Proof.
  intros H. unfold Str.strip. rewrite (lstrip_join lines H).
  apply rstrip_join. induction H as [|line rest Hl Hr IH]; [constructor|].
  simpl. destruct (Str.is_empty line); [exact IH | now constructor].
Qed.

Lemma splitlines_join (lines : list string) :
  Forall (fun line => has_break line = false) lines ->
  lines = [] \/ Str.is_empty (last lines "") = false ->
  Str.splitlines (Str.join Str.nl lines) = lines.
Proof.
  unfold Str.splitlines.
  induction 1 as [|line rest Hline Hrest IH]; intros Hlast; [reflexivity|].
  destruct rest as [|y rest].
  - destruct Hlast as [Hlast|Hlast]; [discriminate|]. simpl in Hlast.
    cbn [Str.join String.concat].
    pose proof (splitlines_from_line line "" "" Hline) as E.
    rewrite append_empty_r in E. rewrite E. simpl.
    destruct line; [discriminate | reflexivity].
  - rewrite join_cons, splitlines_from_line, splitlines_from_nl by assumption.
    simpl append. f_equal. apply IH. right.
    destruct Hlast as [Hlast|Hlast]; [discriminate | exact Hlast].
Qed.

(** *** Collapsing blank lines *)

Lemma filter_lines_collapse (lines : list string) :
  forall (filtered_lines : list string) (previous_blank : bool),
    filter_lines lines filtered_lines previous_blank
    = (filtered_lines ++ collapse lines previous_blank)%list.
Proof.
  induction lines as [|line rest IH]; intros acc pb; simpl.
  - now rewrite app_nil_r.
  - destruct (Str.is_empty line && pb); rewrite IH; [reflexivity|].
    now rewrite <- app_assoc.
Qed.

Lemma adjacent_blank_cons (a b : string) (l : list string) :
  adjacent_blank (a :: b :: l)
  = (Str.is_empty a && Str.is_empty b) || adjacent_blank (b :: l).
Proof. reflexivity. Qed.

Lemma collapse_no_adjacent_blank (lines : list string) :
  forall previous_blank : bool,
    adjacent_blank (collapse lines previous_blank) = false
    /\ (previous_blank = true ->
        match collapse lines previous_blank with
        | first :: _ => Str.is_empty first = false
        | [] => True
        end).
Proof.
  induction lines as [|line rest IH]; intros pb;
    [split; [reflexivity | intros _; exact I]|].
  cbn [collapse]. destruct (Str.is_empty line) eqn:El.
  - destruct pb; cbn [andb].
    + apply IH.
    + split; [|discriminate].
      destruct (IH true) as [Hadj Hfirst]. specialize (Hfirst eq_refl).
      destruct (collapse rest true) as [|k kept]; [reflexivity|].
      rewrite adjacent_blank_cons. now rewrite Hfirst, Bool.andb_false_r, Hadj.
  - cbn [andb]. destruct (IH false) as [Hadj _]. split.
    + destruct (collapse rest false) as [|k kept]; [reflexivity|].
      rewrite adjacent_blank_cons. now rewrite El, Hadj.
    + intros _. exact El.
Qed.

Lemma collapse_Forall (P : string -> Prop) (lines : list string) :
  forall previous_blank : bool,
    Forall P lines -> Forall P (collapse lines previous_blank).
Proof.
  induction lines as [|line rest IH]; intros pb H; [constructor|].
  inversion H as [|? ? Hl Hr]; subst. cbn [collapse].
  destruct (Str.is_empty line && pb); [auto | constructor; auto].
Qed.

(** *** Trimming keeps what the lines have *)

Lemma drop_blank_Forall (P : string -> Prop) (lines : list string) :
  Forall P lines -> Forall P (drop_blank lines).
Proof.
  induction 1 as [|line rest Hl Hr IH]; [constructor|]. simpl.
  destruct (Str.is_empty line); [exact IH | now constructor].
Qed.

Lemma drop_blank_end_Forall (P : string -> Prop) (lines : list string) :
  Forall P lines -> Forall P (drop_blank_end lines).
Proof.
  induction 1 as [|line rest Hl Hr IH]; [constructor|]. cbn [drop_blank_end].
  destruct (drop_blank_end rest) as [|k kept].
  - destruct (Str.is_empty line); repeat constructor; assumption.
  - now constructor.
Qed.

Lemma adjacent_blank_tail (line : string) (rest : list string) :
  adjacent_blank (line :: rest) = false -> adjacent_blank rest = false.
Proof.
  destruct rest as [|y rest]; [reflexivity|]. rewrite adjacent_blank_cons.
  intros H. apply Bool.orb_false_iff in H. tauto.
Qed.

Lemma drop_blank_adjacent (lines : list string) :
  adjacent_blank lines = false -> adjacent_blank (drop_blank lines) = false.
Proof.
  induction lines as [|line rest IH]; [trivial|]. intros H. simpl drop_blank.
  destruct (Str.is_empty line); [|exact H].
  apply IH, (adjacent_blank_tail line), H.
Qed.

Lemma drop_blank_end_head (lines : list string) :
  match drop_blank_end lines, lines with
  | k :: _, line :: _ => k = line
  | _, _ => True
  end.
Proof.
  destruct lines as [|line rest]; [exact I|]. cbn [drop_blank_end].
  destruct (drop_blank_end rest); [destruct (Str.is_empty line)|];
    first [exact I | reflexivity].
Qed.

Lemma drop_blank_end_adjacent (lines : list string) :
  adjacent_blank lines = false ->
  adjacent_blank (drop_blank_end lines) = false.
Proof.
  induction lines as [|line rest IH]; [trivial|]. intros H.
  pose proof (adjacent_blank_tail _ _ H) as Ht. specialize (IH Ht).
  pose proof (drop_blank_end_head rest) as Hh.
  cbn [drop_blank_end].
  destruct (drop_blank_end rest) as [|k kept] eqn:D.
  - destruct (Str.is_empty line); reflexivity.
  - destruct rest as [|y rest']; [discriminate D|].
    subst k. rewrite adjacent_blank_cons in *. apply Bool.orb_false_iff in H.
    destruct H as [H _]. now rewrite H, IH.
Qed.

(** *** [get_text] *)

Context {lib : PyLib}.

Lemma get_text_lines (self : TextOnlyHTMLParser) :
  get_text self = Str.join Str.nl (kept_lines self)
  /\ Forall clean (kept_lines self)
  /\ adjacent_blank (kept_lines self) = false
  /\ (kept_lines self = []
      \/ Str.is_empty (last (kept_lines self) "") = false).
Proof.
  unfold get_text, kept_lines. rewrite filter_lines_collapse. cbn [app].
  set (lines := map Str.strip (Str.splitlines (Str.join "" self.(_parts)))).
  assert (Hclean : Forall clean (collapse lines false)).
  { apply collapse_Forall. unfold lines. apply Forall_map.
    eapply Forall_impl; [|apply splitlines_clean].
    intros line. apply clean_strip. }
  split; [apply strip_join, Hclean|].
  split; [apply drop_blank_end_Forall, drop_blank_Forall, Hclean|].
  split; [|apply drop_blank_end_last].
  apply drop_blank_end_adjacent, drop_blank_adjacent.
  apply collapse_no_adjacent_blank.
Qed.

Lemma get_text_normal_form (self : TextOnlyHTMLParser) :
  normal_form (get_text self).
Proof.
  destruct (get_text_lines self) as (Htext & Hclean & Hadj & Hlast).
  assert (Hsplit : Str.splitlines (get_text self) = kept_lines self).
  { rewrite Htext. apply splitlines_join; [|exact Hlast].
    eapply Forall_impl; [|exact Hclean]. intros line [H _]. exact H. }
  unfold normal_form. rewrite Hsplit.
  split; [symmetry; exact Htext|]. split; [exact Hadj|]. split.
  - eapply Forall_impl; [|exact Hclean]. intros line [_ H]. exact H.
  - unfold get_text. apply outer_space_strip.
Qed.

End PostProcessing.

(** C4.  Whatever the parser has collected, the text that [get_text] returns
    is in normal form: read line by line, it has no two adjacent empty
    lines, every line is free of leading and trailing white space, and so is
    the text as a whole.  Hence every result of [parse_answer_text] is in
    normal form; for ["<p>a</p><br><br><p>b</p>"] it is [a], one empty line
    and [b]. *)
Theorem post_processing_normal_form (lib : PyLib) :
  (forall self : TextOnlyHTMLParser, normal_form (get_text self))
  /\ (forall html r, parse_answer_text html = Returns r -> normal_form r)
  /\ parse_answer_text paragraphs_and_breaks = Returns a_blank_b
  /\ adjacent_blank (Str.splitlines a_blank_b) = false.
Proof.
  split; [apply get_text_normal_form|]. split; [|split; reflexivity].
  intros html r. unfold parse_answer_text.
  destruct (HTMLParser.feed html) as [events| | |]; simpl; try discriminate.
  destruct (handle_all __init__ events) as [parser| | |]; simpl;
    try discriminate.
  intros H. injection H as <-. apply get_text_normal_form.
Qed.

Lemma post_processing_normal_form_witness :
  (forall lib : PyLib, parse_answer_text "<br>a <br> b<br>" = Returns a_b)
  /\ normal_form a_b.
Proof.
  split; [intros lib; reflexivity|].
  apply (proj1 (proj2 (post_processing_normal_form
                         {| replace_charrefs := fun s => inl s;
                            int_of_str := fun _ => None |}))
           "<br>a <br> b<br>").
  reflexivity.
Defined.

(** ** The paginated retrieval: what a run looks like *)

Section FetchFacts.

Context {lib : PyLib}.
Variable transport : nat -> request -> option json.
Variable question_id : string.
Variable limit : Z.

Local Abbreviation run_follows := (follows transport question_id limit).

Lemma collected_in_app (a b : list fetch_event) :
  collected_in (a ++ b) = (collected_in a + collected_in b)%Z.
Proof.
  unfold collected_in, yielded. rewrite flat_map_app, length_app. lia.
Qed.

Lemma requests_app (a b : list fetch_event) :
  requests (a ++ b) = (requests a ++ requests b)%list.
Proof. apply flat_map_app. Qed.

Lemma collected_in_nonneg (t : list fetch_event) : (0 <= collected_in t)%Z.
Proof. unfold collected_in. lia. Qed.

(** Records only, then what follows from the state they lead to. *)
Lemma follows_app_yields (ys rest : list fetch_event) :
  forall (c o : Z) (n : nat) (mp mr : bool),
    requests ys = [] ->
    run_follows c o n mp mr ys ->
    run_follows (c + collected_in ys)%Z o n mp mr rest ->
    run_follows c o n mp mr (ys ++ rest).
Proof.
  induction ys as [|[r|a] ys IH]; intros c o n mp mr Hreq Hys Hrest.
  - simpl. replace (c + collected_in [])%Z with c in Hrest
      by (unfold collected_in; simpl; lia). exact Hrest.
  - discriminate.
  - simpl in *. destruct Hys as (Hmr & Hc & Hys).
    split; [assumption|]. split; [assumption|].
    apply IH; try assumption.
    replace (c + 1 + collected_in ys)%Z
      with (c + collected_in (Yielded a :: ys))%Z; [exact Hrest|].
    unfold collected_in. simpl. lia.
Qed.

(** *** The inner loop *)

Lemma for_answers_follows (items : list json) :
  forall (c o : Z) (n : nat) (mp : bool),
    (c < limit)%Z ->
    run_follows c o n mp true (fst (for_answers items limit c))
    /\ requests (fst (for_answers items limit c)) = []
    /\ (forall c', snd (for_answers items limit c) = Returns c' ->
                   c' = (c + collected_in (fst (for_answers items limit c)))%Z
                   /\ (c' <= limit)%Z
                   /\ (items <> [] -> (c < c')%Z)).
Proof.
  induction items as [|answer rest IH]; intros c o n mp Hc.
  - simpl. split; [exact I|]. split; [reflexivity|].
    intros c' H. injection H as <-. unfold collected_in. simpl.
    repeat split; try lia. congruence.
  - cbn [for_answers]. unfold lift, emit, gbind.
    destruct (make_record answer) as [record|e| |];
      try (simpl; split; [exact I|]; split; [reflexivity|]; discriminate).
    destruct (Z.geb_spec (c + 1) limit) as [Hge|Hlt].
    + simpl. unfold collected_in. simpl.
      repeat split; try assumption; try lia;
        injection H as <-; lia.
    + destruct (IH (c + 1)%Z o n mp Hlt) as (Hf & Hr & Hret).
      destruct (for_answers rest limit (c + 1)) as [t r] eqn:E.
      simpl in *. split; [repeat split; assumption|].
      split; [assumption|].
      intros c' H. destruct r as [x|e| |]; try discriminate.
      destruct (Hret c' H) as (H1 & H2 & _).
      unfold collected_in in *. simpl. repeat split; lia.
Qed.

(** *** The outer loop *)

Lemma gbind_fst {A B : Type} (m : gen A) (k : A -> gen B) :
  fst (gbind m k)
  = (fst m ++ match snd m with
              | Returns a => fst (k a)
              | _ => []
              end)%list.
Proof.
  destruct m as [t [a|e| |]]; simpl; try now rewrite app_nil_r.
  destruct (k a); reflexivity.
Qed.

Lemma gbind_snd {A B : Type} (m : gen A) (k : A -> gen B) :
  snd (gbind m k)
  = match snd m with
    | Returns a => snd (k a)
    | Raises e => Raises e
    | OutOfFuel => OutOfFuel
    | Unmodelled => Unmodelled
    end.
Proof.
  destruct m as [t [a|e| |]]; simpl; try reflexivity.
  destruct (k a); reflexivity.
Qed.

Lemma fetch_loop_follows (fuel : nat) :
  forall (c o : Z) (n : nat) (mr : bool),
    run_follows c o n true mr
      (fst (fetch_loop transport fuel question_id limit c o n)).
Proof.
  induction fuel as [|fuel IH]; intros c o n mr; [exact I|].
  cbn [fetch_loop].
  destruct (Z.ltb_spec c limit) as [Hc|Hc]; [|exact I].
  set (req := {| req_question := question_id;
                 req_limit := Z.min DEFAULT_PAGE_SIZE (limit - c);
                 req_offset := o |}).
  rewrite gbind_fst. cbn [emit fst snd app].
  split; [reflexivity|]. split; [assumption|]. split; [reflexivity|].
  destruct (transport n req) as [payload|] eqn:Hresp; [|exact I].
  rewrite gbind_fst. cbn [lift fst snd app].
  unfold goes_on, has_records, empty_page, end_flag.
  destruct (Py.get payload "data" (JList [])) as [answers|e| |] eqn:Hdata;
    try exact I.
  destruct (Py.truthy answers) eqn:Htruthy; cbn [negb]; [|exact I].
  rewrite gbind_fst. cbn [lift fst snd app].
  destruct (Py.iter answers) as [items|e| |]; try exact I.
  rewrite gbind_fst.
  destruct (for_answers_follows items c (o + req_limit req)%Z (S n)
              (match Py.get payload "paging" (JDict []) with
               | Returns paging =>
                   match Py.get paging "is_end" JNull with
                   | Returns is_end => negb (Py.truthy is_end)
                   | _ => true
                   end
               | _ => true
               end) Hc) as (Hys & Hreq & Hret).
  apply follows_app_yields; [exact Hreq | |].
  - destruct (Py.get payload "paging" (JDict [])) as [paging|e| |];
      [destruct (Py.get paging "is_end" JNull) as [is_end|e| |]|..];
      cbn [andb negb] in *; exact Hys.
  - destruct (snd (for_answers items limit c)) as [c'|e| |] eqn:Hsnd;
      try exact I.
    destruct (Hret c' eq_refl) as (Hc' & _ & _).
    rewrite gbind_fst. cbn [lift fst snd app].
    destruct (Py.get payload "paging" (JDict [])) as [paging|e| |]; try exact I.
    rewrite gbind_fst. cbn [lift fst snd app].
    destruct (Py.get paging "is_end" JNull) as [is_end|e| |]; try exact I.
    destruct (Py.truthy is_end); [exact I|].
    cbn [andb negb]. rewrite <- Hc'. apply IH.
Qed.

(** *** What [follows] says about a run cut in two *)

Lemma follows_at_request (pre : list fetch_event) :
  forall (c o : Z) (n : nat) (mp mr : bool) (r : request)
         (post : list fetch_event),
    run_follows c o n mp mr (pre ++ Requested r :: post) ->
    (c + collected_in pre < limit)%Z
    /\ r = {| req_question := question_id;
              req_limit :=
                Z.min DEFAULT_PAGE_SIZE (limit - (c + collected_in pre));
              req_offset := (o + asked pre)%Z |}
    /\ run_follows (c + collected_in pre)
         (o + asked pre + r.(req_limit))%Z
         (S (n + List.length (requests pre)))
         (goes_on (transport (n + List.length (requests pre)) r))
         (has_records (transport (n + List.length (requests pre)) r)) post.
Proof.
  induction pre as [|[r'|a] pre IH]; intros c o n mp mr r post H.
  - simpl in H. destruct H as (_ & Hc & Hr & Hpost).
    unfold collected_in, asked. simpl.
    rewrite !Z.add_0_r, Nat.add_0_r. auto.
  - simpl in H. destruct H as (_ & _ & _ & H).
    destruct (IH _ _ _ _ _ _ _ H) as (H1 & H2 & H3).
    replace (collected_in (Requested r' :: pre)) with (collected_in pre)
      by reflexivity.
    replace (o + asked (Requested r' :: pre))%Z
      with (o + req_limit r' + asked pre)%Z by (unfold asked; simpl; lia).
    replace (n + List.length (requests (Requested r' :: pre)))
      with (S n + List.length (requests pre)) by (simpl; lia).
    auto.
  - simpl in H. destruct H as (_ & _ & H).
    destruct (IH _ _ _ _ _ _ _ H) as (H1 & H2 & H3).
    replace (c + collected_in (Yielded a :: pre))%Z
      with (c + 1 + collected_in pre)%Z by (unfold collected_in; simpl; lia).
    replace (asked (Yielded a :: pre)) with (asked pre) by reflexivity.
    replace (requests (Yielded a :: pre)) with (requests pre) by reflexivity.
    auto.
Qed.

Lemma follows_bound (pre post : list fetch_event) :
  forall (c o : Z) (n : nat) (mp mr : bool),
    run_follows c o n mp mr (pre ++ post) ->
    (c <= limit)%Z ->
    (c + collected_in pre <= limit)%Z.
Proof.
  induction pre as [|[r|a] pre IH]; intros c o n mp mr H Hc.
  - unfold collected_in. simpl. lia.
  - simpl in H. destruct H as (_ & _ & _ & H).
    exact (IH _ _ _ _ _ H Hc).
  - simpl in H. destruct H as (_ & Hlt & H).
    replace (c + collected_in (Yielded a :: pre))%Z
      with (c + 1 + collected_in pre)%Z by (unfold collected_in; simpl; lia).
    apply (IH _ _ _ _ _ H). lia.
Qed.

Lemma follows_suffix (pre post : list fetch_event) :
  forall (c o : Z) (n : nat) (mp mr : bool),
    run_follows c o n mp mr (pre ++ post) ->
    exists o' n' mp' mr',
      run_follows (c + collected_in pre) o' n' mp' mr' post.
Proof.
  induction pre as [|[r|a] pre IH]; intros c o n mp mr H.
  - exists o, n, mp, mr. unfold collected_in. simpl.
    now rewrite Z.add_0_r.
  - simpl in H. destruct H as (_ & _ & _ & H).
    exact (IH _ _ _ _ _ H).
  - simpl in H. destruct H as (_ & _ & H).
    destruct (IH _ _ _ _ _ H) as (o' & n' & mp' & mr' & H').
    exists o', n', mp', mr'.
    replace (c + collected_in (Yielded a :: pre))%Z
      with (c + 1 + collected_in pre)%Z by (unfold collected_in; simpl; lia).
    exact H'.
Qed.

Lemma follows_at_limit (t : list fetch_event) :
  forall (c o : Z) (n : nat) (mp mr : bool),
    run_follows c o n mp mr t -> (limit <= c)%Z -> t = [].
Proof.
  destruct t as [|[r|a] t]; intros c o n mp mr H Hc; [reflexivity| |];
    simpl in H; lia.
Qed.

Lemma follows_last_page (t : list fetch_event) :
  forall (c o : Z) (n : nat) (mr : bool),
    run_follows c o n false mr t -> requests t = [].
Proof.
  induction t as [|[r|a] t IH]; intros c o n mr H; [reflexivity| |];
    simpl in H.
  - destruct H as (H & _). discriminate.
  - destruct H as (_ & _ & H). exact (IH _ _ _ _ H).
Qed.

Lemma follows_nothing (t : list fetch_event) :
  forall (c o : Z) (n : nat),
    run_follows c o n false false t -> t = [].
Proof.
  destruct t as [|[r|a] t]; intros c o n H; [reflexivity| |];
    simpl in H; destruct H as (H & _); discriminate.
Qed.

(** *** The loop ends *)

Lemma get_outcome (v : json) (key : string) (default : json) :
  Py.get v key default <> OutOfFuel /\ Py.get v key default <> Unmodelled.
Proof.
  destruct v; simpl; try (split; discriminate).
  destruct (Py.lookup key members); split; discriminate.
Qed.

Lemma iter_outcome (v : json) :
  Py.iter v <> OutOfFuel /\ Py.iter v <> Unmodelled.
Proof. destruct v; simpl; split; discriminate. Qed.

Lemma iter_truthy (answers : json) (items : list json) :
  Py.truthy answers = true -> Py.iter answers = Returns items -> items <> [].
Proof.
  destruct answers as [|b|z|s|l|m]; simpl; try discriminate;
    intros Ht H; injection H as <-.
  - destruct s; [discriminate | simpl; congruence].
  - destruct l; [discriminate | congruence].
  - destruct m; [discriminate | simpl; congruence].
Qed.

Lemma make_record_fuel (answer : json) : make_record answer <> OutOfFuel.
Proof.
  unfold make_record, parse_content, Py.get, Py.int.
  repeat match goal with
         | |- parse_answer_text _ <> _ => apply parse_answer_text_fuel
         | |- (x <- parse_answer_text ?s ;; _) <> _ =>
             let H := fresh in
             pose proof (parse_answer_text_fuel s) as H;
             destruct (parse_answer_text s); simpl; try congruence
         | |- context [match ?x with _ => _ end] => destruct x; simpl
         end; try discriminate.
Qed.

Lemma for_answers_fuel (items : list json) :
  forall c : Z, snd (for_answers items limit c) <> OutOfFuel.
Proof.
  induction items as [|answer rest IH]; intros c; [discriminate|].
  cbn [for_answers]. rewrite gbind_snd. cbn [lift snd].
  pose proof (make_record_fuel answer) as H.
  destruct (make_record answer) as [record|e| |]; try congruence.
  rewrite gbind_snd. cbn [emit snd].
  destruct (c + 1 >=? limit)%Z; [discriminate | apply IH].
Qed.

Lemma fetch_loop_fuel (fuel : nat) :
  forall (c o : Z) (n : nat),
    (Z.max 0 (limit - c) < Z.of_nat fuel)%Z ->
    snd (fetch_loop transport fuel question_id limit c o n) <> OutOfFuel.
Proof.
  induction fuel as [|fuel IH]; intros c o n Hfuel; [lia|].
  cbn [fetch_loop].
  destruct (Z.ltb_spec c limit) as [Hc|Hc]; [|discriminate].
  rewrite gbind_snd. cbn [emit snd].
  destruct (transport n _) as [payload|]; [|discriminate].
  rewrite gbind_snd. cbn [lift snd].
  destruct (Py.get payload "data" (JList [])) as [answers|e| |] eqn:Hdata;
    try discriminate.
  - destruct (Py.truthy answers) eqn:Htruthy; cbn [negb]; [|discriminate].
    rewrite gbind_snd. cbn [lift snd].
    destruct (Py.iter answers) as [items|e| |] eqn:Hiter; try discriminate.
    + rewrite gbind_snd.
      pose proof (for_answers_fuel items c) as Hfor.
      destruct (for_answers_follows items c 0 0 true Hc) as (_ & _ & Hret).
      destruct (snd (for_answers items limit c)) as [c'|e| |];
        try congruence.
      destruct (Hret c' eq_refl) as (_ & Hle & Hlt).
      specialize (Hlt (iter_truthy _ _ Htruthy Hiter)).
      rewrite gbind_snd. cbn [lift snd].
      destruct (Py.get payload "paging" (JDict [])) as [paging|e| |] eqn:Hp;
        try discriminate.
      * rewrite gbind_snd. cbn [lift snd].
        destruct (Py.get paging "is_end" JNull) as [is_end|e| |] eqn:He;
          try discriminate.
        -- destruct (Py.truthy is_end); [discriminate|]. apply IH. lia.
        -- exfalso. exact (proj1 (get_outcome _ _ _) He).
      * exfalso. exact (proj1 (get_outcome _ _ _) Hp).
    + exfalso. exact (proj1 (iter_outcome _) Hiter).
  - exfalso. exact (proj1 (get_outcome _ _ _) Hdata).
Qed.

Lemma fetch_answers_fuel :
  snd (fetch_answers transport question_id limit) <> OutOfFuel.
Proof. apply fetch_loop_fuel. lia. Qed.

(** *** The first page *)

(** A run is empty, or a single request, or begins with a request and the
    first record of its page. *)
Lemma fetch_loop_first_page (fuel : nat) (c o : Z) (n : nat) :
  let t := fst (fetch_loop transport fuel question_id limit c o n) in
  t = []
  \/ (exists r, t = [Requested r])
  \/ (exists r a rest, t = Requested r :: Yielded a :: rest).
Proof.
  destruct fuel as [|fuel]; [now left|]. cbn [fetch_loop].
  destruct (Z.ltb_spec c limit) as [Hc|Hc]; [|now left].
  right. rewrite gbind_fst. cbn [emit fst snd app].
  destruct (transport n _) as [payload|]; [|left; eexists; reflexivity].
  rewrite gbind_fst. cbn [lift fst snd app].
  destruct (Py.get payload "data" (JList [])) as [answers|e| |];
    try (left; eexists; reflexivity).
  destruct (Py.truthy answers) eqn:Htruthy; cbn [negb];
    [|left; eexists; reflexivity].
  rewrite gbind_fst. cbn [lift fst snd app].
  destruct (Py.iter answers) as [items|e| |] eqn:Hiter;
    try (left; eexists; reflexivity).
  pose proof (iter_truthy _ _ Htruthy Hiter) as Hne.
  destruct items as [|answer items]; [congruence|].
  rewrite gbind_fst. cbn [for_answers].
  rewrite gbind_fst, gbind_snd. cbn [lift fst snd app].
  destruct (make_record answer) as [record|e| |];
    try (left; eexists; reflexivity).
  right. rewrite gbind_fst. cbn [emit fst snd app].
  eexists _, record, _. reflexivity.
Qed.

End FetchFacts.

(** ** The paginated retrieval: scenarios *)

(** C6.  Every request of a run asks for [min(page_size, limit - collected)]
    records, where [page_size] is 20 and [collected] counts the records
    yielded before the request, at an offset that is the sum of the sizes
    asked before, hence 0 for the first request.  For a limit that is not
    negative the number of records yielded never exceeds the limit, at any
    point of the run.  With unlimited data, [fetch_answers id 25] ends
    normally after 25 records and two requests, the last one for 5
    records. *)
Theorem pagination_limit (lib : PyLib) :
  DEFAULT_PAGE_SIZE = 20%Z
  /\ (forall transport question_id limit pre r post,
         fst (fetch_answers transport question_id limit)
         = (pre ++ Requested r :: post)%list ->
         r = get question_id
               (Z.min DEFAULT_PAGE_SIZE (limit - collected_in pre)) (asked pre))
  /\ (forall transport question_id limit,
         (0 < limit)%Z ->
         exists rest,
           fst (fetch_answers transport question_id limit)
           = Requested (get question_id (Z.min 20 limit) 0) :: rest)
  /\ (forall transport question_id limit pre post,
         (0 <= limit)%Z ->
         fst (fetch_answers transport question_id limit) = (pre ++ post)%list ->
         (collected_in pre <= limit)%Z)
  /\ snd (fetch_answers unlimited_server example_question 25) = Returns tt
  /\ collected_in (fst (fetch_answers unlimited_server example_question 25))
     = 25%Z
  /\ requests (fst (fetch_answers unlimited_server example_question 25))
     = [get example_question 20 0; get example_question 5 20].
Proof.
  split; [reflexivity|].
  split; [|split; [|split; [|repeat split]]].
  - intros transport question_id limit pre r post H.
    pose proof (fetch_loop_follows transport question_id limit
                  (S (Z.to_nat limit)) 0 0 0 false) as Hf.
    fold (fetch_answers transport question_id limit) in Hf. rewrite H in Hf.
    apply follows_at_request in Hf. destruct Hf as (_ & Hr & _).
    rewrite !Z.add_0_l in Hr. exact Hr.
  - intros transport question_id limit Hpos.
    unfold fetch_answers. cbn [fetch_loop].
    destruct (Z.ltb_spec 0 limit) as [_|]; [|lia].
    rewrite gbind_fst. cbn [emit fst snd app].
    rewrite Z.sub_0_r. eexists. reflexivity.
  - intros transport question_id limit pre post Hlimit H.
    pose proof (fetch_loop_follows transport question_id limit
                  (S (Z.to_nat limit)) 0 0 0 false) as Hf.
    fold (fetch_answers transport question_id limit) in Hf. rewrite H in Hf.
    apply follows_bound in Hf; lia.
Qed.

Lemma pagination_limit_witness :
  (0 <= 25)%Z
  /\ forall lib : PyLib,
      (collected_in (fst (fetch_answers unlimited_server example_question 25))
       <= 25)%Z.
Proof.
  split; [lia|]. intros lib.
  destruct (pagination_limit lib) as (_ & _ & _ & H & _).
  apply (H unlimited_server example_question 25%Z _ []); [lia|].
  now rewrite app_nil_r.
Defined.

(** C7.  A run of [fetch_answers] ends, and it sends no request after the
    first of these: the number of records yielded has reached the limit
    (nothing follows at all); the page of a response is empty (nothing
    follows); the end flag of a response is set (only records of that page
    follow).  When the server returns pages of 20 records up to an empty
    page at offset 40, [fetch_answers id 1000] ends normally after 40
    records and 3 requests. *)
Theorem pagination_termination (lib : PyLib) :
  (forall transport question_id limit,
      snd (fetch_answers transport question_id limit) <> OutOfFuel)
  /\ (forall transport question_id limit pre post,
         fst (fetch_answers transport question_id limit) = (pre ++ post)%list ->
         (limit <= collected_in pre)%Z ->
         post = [])
  /\ (forall transport question_id limit pre r post payload,
         fst (fetch_answers transport question_id limit)
         = (pre ++ Requested r :: post)%list ->
         transport (List.length (requests pre)) r = Some payload ->
         empty_page payload = true ->
         post = [])
  /\ (forall transport question_id limit pre r post payload,
         fst (fetch_answers transport question_id limit)
         = (pre ++ Requested r :: post)%list ->
         transport (List.length (requests pre)) r = Some payload ->
         end_flag payload = true ->
         requests post = [])
  /\ snd (fetch_answers forty_records_server example_question 1000)
     = Returns tt
  /\ collected_in
       (fst (fetch_answers forty_records_server example_question 1000))
     = 40%Z
  /\ requests (fst (fetch_answers forty_records_server example_question 1000))
     = [get example_question 20 0; get example_question 20 20;
        get example_question 20 40].
Proof.
  split; [intros; apply fetch_answers_fuel|].
  split; [|split; [|split; [|repeat split; vm_compute; reflexivity]]].
  - intros transport question_id limit pre post H Hlimit.
    pose proof (fetch_loop_follows transport question_id limit
                  (S (Z.to_nat limit)) 0 0 0 false) as Hf.
    fold (fetch_answers transport question_id limit) in Hf. rewrite H in Hf.
    apply follows_suffix in Hf. destruct Hf as (o & n & mp & mr & Hf).
    apply follows_at_limit in Hf; [exact Hf | lia].
  - intros transport question_id limit pre r post payload H Hresp Hempty.
    pose proof (fetch_loop_follows transport question_id limit
                  (S (Z.to_nat limit)) 0 0 0 false) as Hf.
    fold (fetch_answers transport question_id limit) in Hf. rewrite H in Hf.
    apply follows_at_request in Hf. destruct Hf as (_ & _ & Hf).
    cbn [Nat.add] in Hf. rewrite Hresp in Hf. unfold goes_on, has_records in Hf.
    rewrite Hempty in Hf. exact (follows_nothing _ _ _ _ _ _ _ Hf).
  - intros transport question_id limit pre r post payload H Hresp Hend.
    pose proof (fetch_loop_follows transport question_id limit
                  (S (Z.to_nat limit)) 0 0 0 false) as Hf.
    fold (fetch_answers transport question_id limit) in Hf. rewrite H in Hf.
    apply follows_at_request in Hf. destruct Hf as (_ & _ & Hf).
    cbn [Nat.add] in Hf. rewrite Hresp in Hf. unfold goes_on in Hf.
    rewrite Hend, Bool.andb_false_r in Hf.
    exact (follows_last_page _ _ _ _ _ _ _ _ Hf).
Qed.

Lemma pagination_termination_witness :
  empty_page (page 0) = true
  /\ forall lib : PyLib,
      exists pre,
        fst (fetch_answers forty_records_server example_question 1000)
        = (pre ++ [Requested (get example_question 20 40)])%list.
Proof.
  split; [reflexivity|]. intros lib.
  destruct (pagination_termination lib) as (_ & _ & H & _).
  pose (t := fst (fetch_answers forty_records_server example_question 1000)).
  exists (firstn 42 t).
  assert (E : t = (firstn 42 t
                     ++ Requested (get example_question 20 40)
                     :: skipn 43 t)%list) by (vm_compute; reflexivity).
  rewrite (H forty_records_server example_question 1000%Z _ _ _ (page 0) E)
    in E; [exact E | vm_compute; reflexivity | reflexivity].
Defined.

(** ** The writer and the chunk size *)

Section Writer.

Context {lib : PyLib}.

Lemma chunk_text_nonpositive (text : string) (size : Z) :
  (size <= 0)%Z -> chunk_text text size = Raises chunk_size_error.
Proof.
  intros H. unfold chunk_text.
  destruct (Z.leb_spec size 0); [reflexivity | lia].
Qed.

(** With a chunk size that is not positive the writer stops at the first
    record. *)
Lemma write_rows_nonpositive (t : list fetch_event) (ending : outcome unit)
    (size : Z) :
  (size <= 0)%Z ->
  (t = [] \/ (exists r, t = [Requested r])
   \/ (exists r a rest, t = Requested r :: Yielded a :: rest)) ->
  rows (write_rows t ending size) = []
  /\ (yielded t <> [] ->
      result (write_rows t ending size) = Raises chunk_size_error
      /\ exists r, network (write_rows t ending size) = [r])
  /\ (yielded t = [] ->
      result (write_rows t ending size) = ending
      /\ network (write_rows t ending size) = requests t).
Proof.
  intros Hsize [->|[[r ->]|(r & a & rest & ->)]]; simpl.
  - repeat split; congruence.
  - repeat split; congruence.
  - rewrite chunk_text_nonpositive by assumption. simpl.
    repeat split; try discriminate. now exists r.
Qed.

End Writer.

(** C8, as the code has it.  For every text and every chunk size that is
    not positive [chunk_text] raises its error at once and returns no
    chunks.  The program does not check the chunk size before it fetches:
    the records are produced on demand, so [chunk_text] is first called for
    the first record, after the request for its page was sent.  With such a
    chunk size no row is written; when the run yields a record the error is
    raised after exactly one request, and when it yields none the error is
    not raised and the program ends as the retrieval does. *)
Theorem chunk_size_fail_fast (lib : PyLib) :
  (forall text size,
      (size <= 0)%Z -> chunk_text text size = Raises chunk_size_error)
  /\ (forall transport args,
         (args.(chunk_size) <= 0)%Z ->
         rows (main transport args) = []
         /\ (yielded
               (fst (fetch_answers transport args.(question) args.(limit)))
             <> [] ->
             result (main transport args) = Raises chunk_size_error
             /\ exists r, network (main transport args) = [r])
         /\ (yielded
               (fst (fetch_answers transport args.(question) args.(limit)))
             = [] ->
             result (main transport args)
             = exit_status
                 (snd (fetch_answers transport args.(question) args.(limit)))
             /\ network (main transport args)
                = requests
                    (fst (fetch_answers transport args.(question)
                            args.(limit)))))
  /\ main empty_server {| question := example_question; limit := 500;
                          chunk_size := 0 |}
     = {| network := [get example_question 20 0];
          rows := [];
          result := Returns 0%Z |}.
Proof.
  split; [intros text size; apply chunk_text_nonpositive|].
  split; [|reflexivity].
  intros transport args Hsize. unfold main, write_answers_to_csv.
  cbn [network rows result].
  destruct (write_rows_nonpositive
              (fst (fetch_answers transport args.(question) args.(limit)))
              (snd (fetch_answers transport args.(question) args.(limit)))
              args.(chunk_size) Hsize
              (fetch_loop_first_page transport args.(question) args.(limit)
                 _ _ _ _)) as (Hrows & Hsome & Hnone).
  split; [exact Hrows|]. split.
  - intros H. destruct (Hsome H) as (Hres & Hnet). rewrite Hres.
    split; [reflexivity | exact Hnet].
  - intros H. destruct (Hnone H) as (Hres & Hnet). rewrite Hres.
    split; [reflexivity | exact Hnet].
Qed.

Lemma chunk_size_fail_fast_witness :
  (0 <= 0)%Z
  /\ forall lib : PyLib,
      chunk_text "abc" 0 = Raises chunk_size_error
      /\ rows (main one_record_server
                 {| question := example_question; limit := 500;
                    chunk_size := 0 |}) = [].
Proof.
  split; [lia|]. intros lib.
  destruct (chunk_size_fail_fast lib) as (H1 & H2 & _).
  split; [apply H1; lia|].
  apply (H2 one_record_server
           {| question := example_question; limit := 500; chunk_size := 0 |}).
  simpl. lia.
Defined.

(** C8 as stated fails: with one record on the server and chunk size 0, the
    request for the first page is sent before the error is raised. *)
Lemma chunk_size_error_after_first_request :
  (forall lib : PyLib,
      main one_record_server
        {| question := example_question; limit := 500; chunk_size := 0 |}
      = {| network := [get example_question 20 0];
           rows := [];
           result := Raises chunk_size_error |})
  /\ List.length [get example_question 20 0] = 1.
Proof. split; [intros lib|]; reflexivity. Qed.

(** ** The record of an answer *)

Section Records.

Context {lib : PyLib}.

Lemma get_member (members : list (string * json)) (key : string)
    (default : json) :
  Py.get (JDict members) key default
  = Returns match Py.lookup key members with
            | Some v => v
            | None => default
            end.
Proof. simpl. destruct (Py.lookup key members); reflexivity. Qed.

Lemma bind_returns {A B : Type} (m : outcome A) (k : A -> outcome B) (b : B) :
  (x <- m ;; k x) = Returns b -> exists a, m = Returns a /\ k a = Returns b.
Proof. destruct m; simpl; try discriminate. intros H. now exists a. Qed.

Lemma author_name_is_read (members : list (string * json)) :
  author_ok members = true ->
  exists name,
    Py.get (Py.or match Py.lookup "author" members with
                  | Some v => v
                  | None => JNull
                  end (JDict [])) "name" JNull = Returns name.
Proof.
  unfold author_ok, Py.or.
  destruct (Py.lookup "author" members) as [v|]; [|eexists; reflexivity].
  destruct (Py.truthy v); cbn [negb orb]; [|eexists; reflexivity].
  destruct v; try discriminate. intros _. rewrite get_member.
  eexists. reflexivity.
Qed.

(** What [make_record] returns, field by field. *)
Lemma make_record_fields (members : list (string * json))
    (record : AnswerRecord) :
  make_record (JDict members) = Returns record ->
  exists author name,
    author = Py.or match Py.lookup "author" members with
                   | Some v => v
                   | None => JNull
                   end (JDict [])
    /\ Py.get author "name" JNull = Returns name
    /\ record.(author_name) = Py.or name (JStr anonymous)
    /\ Py.int match Py.lookup "voteup_count" members with
              | Some v => v
              | None => JInt 0
              end = Returns record.(voteup_count)
    /\ Py.int match Py.lookup "favlists_count" members with
              | Some v => v
              | None => JInt 0
              end = Returns record.(favlists_count).
Proof.
  unfold make_record. rewrite !get_member. cbn [bind]. intros H.
  apply bind_returns in H. destruct H as (name & Hname & H).
  apply bind_returns in H. destruct H as (votes & Hvotes & H).
  apply bind_returns in H. destruct H as (favs & Hfavs & H).
  apply bind_returns in H. destruct H as (parsed & _ & H).
  injection H as <-. cbn [author_name voteup_count favlists_count].
  eexists _, name. repeat split; eassumption.
Qed.

End Records.

(** C9, as the code has it.  For every raw record that is a JSON object,
    [make_record] returns exactly when each field is missing or usable: the
    author missing, empty or an object; each count missing or a value that
    [int] reads; the content missing, empty or a text for which the
    extractor returns.  So a missing field is never fatal, whatever the
    other fields hold.  In the record, [author_name] is the placeholder when
    the author is absent or empty, and when the author is an object whose
    name is absent or empty; [voteup_count] and [favlists_count] are 0 when
    the member is missing, and the integer of the member when it holds one,
    whatever its sign.  A record without author, counts and content gives
    the placeholder, 0, 0 and the empty text. *)
Theorem record_defaulting (lib : PyLib) :
  (forall members record,
      make_record (JDict members) = Returns record ->
      (absent_or_empty (Py.lookup "author" members) = true ->
       record.(author_name) = JStr anonymous)
      /\ (forall fields,
             Py.lookup "author" members = Some (JDict fields) ->
             absent_or_empty (Py.lookup "name" fields) = true ->
             record.(author_name) = JStr anonymous)
      /\ (Py.lookup "voteup_count" members = None ->
          record.(voteup_count) = 0%Z)
      /\ (Py.lookup "favlists_count" members = None ->
          record.(favlists_count) = 0%Z)
      /\ (forall n, Py.lookup "voteup_count" members = Some (JInt n) ->
                    record.(voteup_count) = n)
      /\ (forall n, Py.lookup "favlists_count" members = Some (JInt n) ->
                    record.(favlists_count) = n))
  /\ (forall members,
         absent_or_empty (Py.lookup "author" members) = true ->
         Py.lookup "voteup_count" members = None ->
         Py.lookup "favlists_count" members = None ->
         absent_or_empty (Py.lookup "content" members) = true ->
         make_record (JDict members) = Returns default_record)
  /\ make_record (JDict []) = Returns default_record
  /\ (forall members,
         (exists record, make_record (JDict members) = Returns record)
         <-> (author_ok members = true
              /\ count_ok (Py.lookup "voteup_count" members) = true
              /\ count_ok (Py.lookup "favlists_count" members) = true
              /\ content_ok (Py.lookup "content" members) = true))
  /\ (forall members,
         absent_or_empty (Py.lookup "author" members) = true ->
         author_ok members = true)
  /\ count_ok None = true
  /\ (forall n, count_ok (Some (JInt n)) = true)
  /\ (forall v, absent_or_empty v = true -> content_ok v = true).
Proof.
  split; [|split; [|split; [reflexivity|split; [|split; [|split; [|split]]]]]].
  - intros members record H.
    destruct (make_record_fields members record H)
      as (author & name & Hauthor & Hname & Hrec & Hvotes & Hfavs).
    split; [|split; [|split; [|split; [|split]]]].
    + intros Habsent. rewrite Hrec.
      assert (author = JDict []) as ->.
      { rewrite Hauthor. unfold Py.or.
        destruct (Py.lookup "author" members) as [v|]; simpl in *;
          [|reflexivity].
        destruct (Py.truthy v); [discriminate | reflexivity]. }
      simpl in Hname. injection Hname as <-. reflexivity.
    + intros fields Hfields Habsent. rewrite Hrec.
      rewrite Hfields in Hauthor. unfold Py.or in Hauthor.
      destruct (Py.truthy (JDict fields)) eqn:Ht; subst author.
      * simpl in Hname. destruct (Py.lookup "name" fields) as [v|];
          injection Hname as <-; [|reflexivity].
        simpl in Habsent. unfold Py.or.
        destruct (Py.truthy v); [discriminate | reflexivity].
      * simpl in Hname. injection Hname as <-. reflexivity.
    + intros Hnone. rewrite Hnone in Hvotes. simpl in Hvotes. congruence.
    + intros Hnone. rewrite Hnone in Hfavs. simpl in Hfavs. congruence.
    + intros n Hsome. rewrite Hsome in Hvotes. simpl in Hvotes. congruence.
    + intros n Hsome. rewrite Hsome in Hfavs. simpl in Hfavs. congruence.
  - intros members Hauthor Hvotes Hfavs Hcontent.
    unfold make_record. rewrite !get_member. rewrite Hvotes, Hfavs.
    cbn [bind].
    assert (Py.or match Py.lookup "author" members with
                  | Some v => v
                  | None => JNull
                  end (JDict []) = JDict []) as ->.
    { unfold Py.or. destruct (Py.lookup "author" members) as [v|]; simpl in *;
        [|reflexivity].
      destruct (Py.truthy v); [discriminate | reflexivity]. }
    assert (Py.or match Py.lookup "content" members with
                  | Some v => v
                  | None => JNull
                  end (JStr "") = JStr "") as ->.
    { unfold Py.or. destruct (Py.lookup "content" members) as [v|]; simpl in *;
        [|reflexivity].
      destruct (Py.truthy v); [discriminate | reflexivity]. }
    reflexivity.
  - intros members. unfold make_record. rewrite !get_member. cbn [bind].
    split.
    + intros [record H].
      apply bind_returns in H. destruct H as (name & Hname & H).
      apply bind_returns in H. destruct H as (votes & Hvotes & H).
      apply bind_returns in H. destruct H as (favs & Hfavs & H).
      apply bind_returns in H. destruct H as (parsed & Hparsed & _).
      split; [|split; [|split]].
      * unfold author_ok. unfold Py.or in Hname.
        destruct (Py.lookup "author" members) as [v|]; [|reflexivity].
        destruct (Py.truthy v); cbn [negb orb]; [|reflexivity].
        destruct v; simpl in Hname; try discriminate. reflexivity.
      * unfold count_ok.
        destruct (Py.lookup "voteup_count" members); [|reflexivity].
        now rewrite Hvotes.
      * unfold count_ok.
        destruct (Py.lookup "favlists_count" members); [|reflexivity].
        now rewrite Hfavs.
      * unfold content_ok. unfold Py.or in Hparsed.
        destruct (Py.lookup "content" members) as [x|]; [|reflexivity].
        destruct (Py.truthy x); cbn [negb orb]; [|reflexivity].
        now rewrite Hparsed.
    + intros (Hauthor & Hvotes & Hfavs & Hcontent).
      destruct (author_name_is_read members Hauthor) as [name ->].
      cbn [bind].
      assert (Hv : exists votes,
                 Py.int match Py.lookup "voteup_count" members with
                        | Some v => v
                        | None => JInt 0
                        end = Returns votes).
      { unfold count_ok in Hvotes.
        destruct (Py.lookup "voteup_count" members) as [x|];
          [|exists 0%Z; reflexivity].
        destruct (Py.int x) as [n| | |]; try discriminate. now exists n. }
      assert (Hf : exists favs,
                 Py.int match Py.lookup "favlists_count" members with
                        | Some v => v
                        | None => JInt 0
                        end = Returns favs).
      { unfold count_ok in Hfavs.
        destruct (Py.lookup "favlists_count" members) as [x|];
          [|exists 0%Z; reflexivity].
        destruct (Py.int x) as [n| | |]; try discriminate. now exists n. }
      assert (Hc : exists text,
                 parse_content
                   (Py.or match Py.lookup "content" members with
                          | Some v => v
                          | None => JNull
                          end (JStr "")) = Returns text).
      { unfold content_ok in Hcontent. unfold Py.or.
        destruct (Py.lookup "content" members) as [x|];
          [|exists ""; reflexivity].
        destruct (Py.truthy x); cbn [negb orb] in Hcontent;
          [|exists ""; reflexivity].
        destruct (parse_content x) as [text| | |]; try discriminate.
        now exists text. }
      destruct Hv as [votes ->], Hf as [favs ->], Hc as [text ->].
      cbn [bind]. eexists. reflexivity.
  - intros members H. unfold author_ok.
    destruct (Py.lookup "author" members) as [v|]; [|reflexivity].
    simpl in H. now rewrite H.
  - reflexivity.
  - reflexivity.
  - intros [x|] H; [|reflexivity]. simpl in *. now rewrite H.
Qed.

Lemma record_defaulting_witness :
  absent_or_empty
    (Py.lookup "author" [("author", JDict []); ("voteup_count", JInt 7)])
  = true
  /\ forall lib : PyLib,
      exists record,
        make_record (JDict [("author", JDict []); ("voteup_count", JInt 7)])
        = Returns record
        /\ record.(author_name) = JStr anonymous
        /\ record.(voteup_count) = 7%Z
        /\ record.(favlists_count) = 0%Z.
Proof.
  split; [reflexivity|]. intros lib.
  destruct (proj1 (record_defaulting lib)
              [("author", JDict []); ("voteup_count", JInt 7)]
              {| author_name := JStr anonymous; voteup_count := 7;
                 favlists_count := 0; content_text := "" |} eq_refl)
    as (H1 & _ & _ & H4 & H5 & _).
  eexists. split; [reflexivity|].
  split; [apply H1; reflexivity|].
  split; [apply H5; reflexivity | apply H4; reflexivity].
Defined.

(** C9 as stated fails: a negative count is kept. *)
Lemma negative_count_is_kept :
  (forall lib : PyLib,
      make_record (JDict [("voteup_count", JInt (-3))])
      = Returns {| author_name := JStr anonymous;
                   voteup_count := -3;
                   favlists_count := 0;
                   content_text := "" |})
  /\ (-3 <? 0)%Z = true.
Proof. split; [intros lib|]; reflexivity. Qed.

(** * Further properties *)

(** ** The chunker by position *)

Section ChunkerByPosition.

Lemma substring_empty (a m : nat) : substring a m "" = "".
Proof. destruct a, m; reflexivity. Qed.

Lemma substring_all (s : string) (m : nat) :
  String.length s <= m -> substring 0 m s = s.
Proof.
  revert m; induction s as [|c s IH]; intros m H.
  - apply substring_empty.
  - destruct m as [|m]; simpl in *; [lia|]. f_equal. apply IH. lia.
Qed.

Lemma chunk_count_step (len n : Z) :
  (0 < n)%Z -> (0 < len)%Z ->
  chunk_count len n = S (chunk_count (len - n) n).
Proof.
  intros Hn Hlen. unfold chunk_count.
  replace (len + n - 1)%Z with (len - 1 + 1 * n)%Z by lia.
  rewrite Z.div_add by lia.
  replace (len - n + n - 1)%Z with (len - 1)%Z by lia.
  assert (0 <= (len - 1) / n)%Z by (apply Z.div_pos; lia). lia.
Qed.

Lemma chunk_count_none (len n : Z) :
  (0 < n)%Z -> (len <= 0)%Z -> chunk_count len n = 0.
Proof.
  intros Hn Hlen. unfold chunk_count.
  assert ((len + n - 1) / n < 1)%Z by (apply Z.div_lt_upper_bound; lia).
  lia.
Qed.

Lemma chunk_count_one (len n : Z) :
  (0 < len)%Z -> (len <= n)%Z -> chunk_count len n = 1.
Proof.
  intros Hlen Hn. rewrite chunk_count_step by lia.
  rewrite chunk_count_none by lia. reflexivity.
Qed.

(** The loop adds the slices of what is left of the text. *)
Lemma chunk_loop_slices (text : string) (n : Z) (Hn : (0 < n)%Z) :
  forall (fuel : nat) (start : Z) (chunks : list string),
    (0 <= start)%Z ->
    0 < fuel ->
    String.length text < fuel + Z.to_nat start ->
    chunk_loop fuel text n start chunks
    = Returns
        (chunks
           ++ slices (chunk_count (Z.of_nat (String.length text) - start) n)
                text n start)%list.
Proof.
  induction fuel as [|fuel IH]; intros start chunks Hs Hpos Hfuel; [lia|].
  cbn [chunk_loop].
  destruct (Z.ltb_spec start (Z.of_nat (String.length text))) as [Hlt|Hge].
  - assert (H1 : 0 < fuel) by lia.
    assert (H2 : String.length text < fuel + Z.to_nat (start + n)) by lia.
    rewrite (IH (start + n)%Z _ ltac:(lia) H1 H2).
    rewrite (chunk_count_step (Z.of_nat (String.length text) - start) n)
      by lia.
    cbn [slices]. rewrite <- app_assoc. cbn [app].
    replace (Z.of_nat (String.length text) - (start + n))%Z
      with (Z.of_nat (String.length text) - start - n)%Z by lia.
    reflexivity.
  - rewrite chunk_count_none by lia. cbn [slices]. now rewrite app_nil_r.
Qed.

Lemma length_slices (k : nat) (text : string) (n start : Z) :
  List.length (slices k text n start) = k.
Proof.
  revert start; induction k as [|k IH]; intros start; simpl;
    [reflexivity | now rewrite IH].
Qed.

Lemma nth_slices (k : nat) (text : string) (n : Z) :
  forall (start : Z) (i : nat),
    i < k ->
    nth i (slices k text n start) ""
    = Str.slice text (start + Z.of_nat i * n) (start + Z.of_nat i * n + n).
Proof.
  induction k as [|k IH]; intros start i Hi; [lia|].
  destruct i as [|i]; cbn [slices nth].
  - replace (start + Z.of_nat 0 * n)%Z with start by lia. reflexivity.
  - rewrite IH by lia. f_equal; lia.
Qed.

Lemma chunk_text_slices (s : string) (n : Z) :
  (0 < n)%Z -> s <> "" ->
  chunk_text s n
  = Returns (slices (chunk_count (Z.of_nat (String.length s)) n) s n 0).
Proof.
  intros Hn Hs. unfold chunk_text.
  destruct (Z.leb_spec n 0) as [|_]; [lia|].
  destruct s as [|c s]; [congruence|]. cbn [Str.is_empty].
  rewrite (chunk_loop_slices _ n Hn) by (simpl; lia).
  now rewrite Z.sub_0_r.
Qed.

End ChunkerByPosition.

(** X1.  For a positive chunk size [n], [chunk_text s n] returns
    [max 1 (ceil (len s / n))] chunks, the chunk numbered [i] (from 0) is
    [s[i*n : i*n + n]], and a text of at most [n] characters is returned as
    a single chunk, itself. *)
Theorem chunk_text_by_position (s : string) (n : Z) :
  (0 < n)%Z ->
  exists chunks,
    chunk_text s n = Returns chunks
    /\ List.length chunks
       = Nat.max 1 (chunk_count (Z.of_nat (String.length s)) n)
    /\ (forall i, i < List.length chunks ->
                  nth i chunks ""
                  = Str.slice s (Z.of_nat i * n) (Z.of_nat i * n + n))
    /\ ((Z.of_nat (String.length s) <= n)%Z -> chunks = [s]).
Proof.
  intros Hn. destruct s as [|c s].
  - exists [""]. unfold chunk_text.
    destruct (Z.leb_spec n 0) as [|_]; [lia|]. cbn [Str.is_empty].
    split; [reflexivity|]. split.
    + rewrite chunk_count_none by (simpl; lia). reflexivity.
    + split; [|reflexivity]. intros i Hi. simpl in Hi.
      destruct i; [|lia]. unfold Str.slice. now rewrite substring_empty.
  - eexists. split; [apply chunk_text_slices; [lia | discriminate]|].
    rewrite length_slices.
    assert (Hpos : 0 < chunk_count (Z.of_nat (String.length (String c s))) n)
      by (rewrite chunk_count_step by (simpl; lia); lia).
    split; [lia|]. split.
    + intros i Hi. rewrite nth_slices by assumption. f_equal.
    + intros Hshort. rewrite chunk_count_one by (simpl in *; lia).
      cbn [slices]. unfold Str.slice. f_equal.
      replace (Z.to_nat 0) with 0 by reflexivity.
      apply substring_all. lia.
Qed.

Lemma chunk_text_by_position_witness :
  (0 < 3)%Z
  /\ exists chunks,
      chunk_text "abcdefgh" 3 = Returns chunks
      /\ List.length chunks
         = Nat.max 1 (chunk_count (Z.of_nat (String.length "abcdefgh")) 3)
      /\ (forall i, i < List.length chunks ->
                    nth i chunks ""
                    = Str.slice "abcdefgh" (Z.of_nat i * 3) (Z.of_nat i * 3 + 3))
      /\ ((Z.of_nat (String.length "abcdefgh") <= 3)%Z -> chunks = ["abcdefgh"]).
Proof.
  split; [lia | apply (chunk_text_by_position "abcdefgh" 3); lia].
Defined.

(** ** The extractor on text without markup *)

Section PlainText.

Context {lib : PyLib}.

Lemma space_is_text (c : ascii) :
  Str.is_space c = true -> HTMLParser.is_text_char c = true.
Proof.
  destruct c as [[] [] [] [] [] [] [] []]; intros H;
    first [reflexivity | discriminate H].
Qed.

Lemma all_chars_impl (p q : ascii -> bool) (s : string) :
  (forall c, p c = true -> q c = true) ->
  all_chars p s = true -> all_chars q s = true.
Proof.
  intros Hpq. induction s as [|c s IH]; [trivial|]. simpl. intros H.
  apply Bool.andb_true_iff in H. destruct H as [Hc Hs].
  now rewrite (Hpq c Hc), (IH Hs).
Qed.

Lemma span_all (p : ascii -> bool) (s : string) :
  all_chars p s = true -> Str.span p s = (s, "").
Proof.
  induction s as [|c s IH]; [reflexivity|]. simpl. intros H.
  apply Bool.andb_true_iff in H. destruct H as [Hc Hs].
  now rewrite Hc, (IH Hs).
Qed.

(** Text without markup is one piece of character data. *)
Lemma feed_markup_free (s : string) :
  markup_free s = true ->
  HTMLParser.feed s = Returns (HTMLParser.data_event s).
Proof.
  intros H. unfold HTMLParser.feed. destruct s as [|c s]; [reflexivity|].
  cbn [HTMLParser.goahead String.length]. rewrite (span_all _ _ H).
  reflexivity.
Qed.

Lemma markup_free_no_amp (s : string) :
  markup_free s = true -> Str.contains "&" s = false.
Proof.
  unfold markup_free. induction s as [|c s IH]; [reflexivity|].
  cbn [all_chars Str.contains].
  intros H. apply Bool.andb_true_iff in H. destruct H as [Hc Hs].
  rewrite (IH Hs), Bool.orb_false_r.
  unfold HTMLParser.is_text_char, HTMLParser.char_is in Hc.
  apply Bool.negb_true_iff, Bool.orb_false_iff in Hc. destruct Hc as [Hc _].
  rewrite Ascii.eqb_sym. exact Hc.
Qed.

Lemma unescape_markup_free (s : string) :
  markup_free s = true -> unescape s = Returns s.
Proof. intros H. unfold unescape. now rewrite markup_free_no_amp. Qed.

Lemma lstrip_all_space (s : string) :
  all_chars Str.is_space s = true -> Str.lstrip s = "".
Proof.
  induction s as [|c s IH]; [reflexivity|]. simpl. intros H.
  apply Bool.andb_true_iff in H. destruct H as [Hc Hs].
  rewrite Hc. exact (IH Hs).
Qed.

Lemma strip_all_space (s : string) :
  all_chars Str.is_space s = true -> Str.strip s = "".
Proof. intros H. unfold Str.strip. now rewrite lstrip_all_space. Qed.

Lemma lstrip_fixed (s : string) :
  match Str.first_char s with
  | Some c => Str.is_space c = false
  | None => True
  end ->
  Str.lstrip s = s.
Proof. destruct s as [|c s]; simpl; [trivial|]. now intros ->. Qed.

Lemma strip_fixed (s : string) : outer_space s = false -> Str.strip s = s.
Proof.
  intros H. unfold Str.strip.
  rewrite lstrip_fixed by (destruct s; [exact I | exact (outer_space_cons _ H)]).
  apply rstrip_fixed, outer_space_last, H.
Qed.

Lemma map_strip_fixed (lines : list string) :
  Forall (fun line => outer_space line = false) lines ->
  map Str.strip lines = lines.
Proof.
  induction 1 as [|line rest Hl Hr IH]; [reflexivity|]. simpl.
  now rewrite (strip_fixed _ Hl), IH.
Qed.

Lemma collapse_fixed (lines : list string) :
  forall previous_blank : bool,
    adjacent_blank lines = false ->
    (previous_blank = true ->
     match lines with
     | first :: _ => Str.is_empty first = false
     | [] => True
     end) ->
    collapse lines previous_blank = lines.
Proof.
  induction lines as [|line rest IH]; intros pb Hadj Hfirst; [reflexivity|].
  cbn [collapse].
  assert (Hskip : Str.is_empty line && pb = false).
  { destruct pb; [|apply Bool.andb_false_r].
    rewrite (Hfirst eq_refl). reflexivity. }
  rewrite Hskip. f_equal. apply IH.
  - exact (adjacent_blank_tail _ _ Hadj).
  - intros Hblank. destruct rest as [|y rest]; [exact I|].
    rewrite adjacent_blank_cons in Hadj. apply Bool.orb_false_iff in Hadj.
    destruct Hadj as [Hadj _]. rewrite Hblank in Hadj. exact Hadj.
Qed.

(** [get_text] gives back a text in normal form that is the only part. *)
Lemma get_text_of_normal_form (r : string) (depth : Z) :
  normal_form r ->
  get_text {| _parts := [r]; _ignored_depth := depth |} = r.
Proof.
  intros (Hjoin & Hadj & Hlines & Houter). unfold get_text.
  cbn [_parts]. change (Str.join "" [r]) with r.
  rewrite (map_strip_fixed _ Hlines), filter_lines_collapse. cbn [app].
  rewrite collapse_fixed by (assumption || discriminate).
  rewrite Hjoin. apply strip_fixed, Houter.
Qed.

End PlainText.

(** X2.  An input that holds nothing but white space, the empty input
    included, gives the empty text. *)
Theorem blank_input_gives_empty_text (lib : PyLib) (s : string) :
  all_chars Str.is_space s = true ->
  parse_answer_text s = Returns "".
Proof.
  intros H. unfold parse_answer_text.
  rewrite feed_markup_free
    by (exact (all_chars_impl _ _ s space_is_text H)).
  destruct s as [|c s]; [reflexivity|].
  cbn [HTMLParser.data_event Str.is_empty bind handle_all handle].
  unfold handle_data. cbn [suppressed __init__ _ignored_depth Z.eqb negb].
  now rewrite (strip_all_space _ H).
Qed.

Lemma blank_input_gives_empty_text_witness :
  all_chars Str.is_space (" " ++ Str.nl ++ "  ") = true
  /\ forall lib : PyLib,
      parse_answer_text (" " ++ Str.nl ++ "  ") = Returns "".
Proof.
  split; [reflexivity|]. intros lib.
  apply (blank_input_gives_empty_text lib). reflexivity.
Defined.

(** X3.  The extractor leaves its own results alone: a text in normal form
    that holds neither ["<"] nor ["&"] is returned as it is. *)
Theorem normal_text_is_a_fixed_point (lib : PyLib) (r : string) :
  normal_form r ->
  markup_free r = true ->
  parse_answer_text r = Returns r.
Proof.
  intros Hnormal Hfree. unfold parse_answer_text.
  rewrite (feed_markup_free _ Hfree).
  destruct r as [|c r]; [reflexivity|].
  cbn [HTMLParser.data_event Str.is_empty bind handle_all handle].
  unfold handle_data. cbn [suppressed __init__ _ignored_depth Z.eqb negb].
  destruct Hnormal as (Hjoin & Hadj & Hlines & Houter).
  rewrite (strip_fixed _ Houter). cbn [Str.is_empty negb].
  rewrite (unescape_markup_free _ Hfree). unfold append.
  cbn [bind _parts app].
  f_equal. apply get_text_of_normal_form. repeat split; assumption.
Qed.

Lemma normal_text_is_a_fixed_point_witness :
  normal_form a_blank_b
  /\ markup_free a_blank_b = true
  /\ forall lib : PyLib, parse_answer_text a_blank_b = Returns a_blank_b.
Proof.
  assert (H : normal_form a_blank_b)
    by (repeat split; repeat constructor).
  split; [exact H|]. split; [reflexivity|]. intros lib.
  apply (normal_text_is_a_fixed_point lib); [exact H | reflexivity].
Defined.

(** ** The extractor on tags *)

Section Tags.

Context {lib : PyLib}.

Lemma handle_inline (self : TextOnlyHTMLParser) (ev : event) :
  inline_event ev = true -> handle self ev = Returns self.
Proof.
  destruct ev as [tag|tag|data|name|name]; cbn [inline_event handle];
    try discriminate; unfold inline, ignored; intros H;
    apply Bool.andb_true_iff in H; destruct H as [Hi Hb];
    apply Bool.negb_true_iff in Hi; apply Bool.negb_true_iff in Hb.
  - unfold handle_starttag. rewrite Hi, Hb. now destruct (suppressed self).
  - unfold handle_endtag. rewrite Hi, Hb, Bool.andb_false_r.
    now destruct (suppressed self).
Qed.

Lemma handle_keeps_suppression (self : TextOnlyHTMLParser) (ev : event) :
  (0 < self.(_ignored_depth))%Z ->
  ignored_end ev = false ->
  exists self',
    handle self ev = Returns self'
    /\ (0 < self'.(_ignored_depth))%Z
    /\ self'.(_parts) = self.(_parts).
Proof.
  intros Hd Hev. pose proof (suppressed_pos self Hd) as Hs.
  rewrite (handle_suppressed self ev Hd). eexists. split; [reflexivity|].
  destruct ev as [tag|tag|data|name|name]; cbn [ignored_end] in *;
    try (split; [assumption | reflexivity]).
  - unfold handle_starttag. fold (ignored tag). rewrite Hs.
    destruct (ignored tag); simpl; split; (lia || reflexivity || assumption).
  - unfold handle_endtag. fold (ignored tag).
    rewrite Hev, Hs. cbn [andb]. split; [assumption | reflexivity].
Qed.

Lemma handle_all_stays_suppressed (rest : list event) :
  forall self : TextOnlyHTMLParser,
    (0 < self.(_ignored_depth))%Z ->
    forallb (fun ev => negb (ignored_end ev)) rest = true ->
    exists self',
      handle_all self rest = Returns self'
      /\ self'.(_parts) = self.(_parts).
Proof.
  induction rest as [|ev rest IH]; intros self Hd Hrest;
    [exists self; split; reflexivity|].
  simpl in Hrest. apply Bool.andb_true_iff in Hrest.
  destruct Hrest as [Hev Hrest]. apply Bool.negb_true_iff in Hev.
  destruct (handle_keeps_suppression self ev Hd Hev)
    as (next & Hnext & Hpos & Hparts).
  destruct (IH next Hpos Hrest) as (self' & Hall & Hsame).
  exists self'. cbn [handle_all]. rewrite Hnext. cbn [bind].
  split; [exact Hall | congruence].
Qed.

Lemma get_text_parts (a b : TextOnlyHTMLParser) :
  a.(_parts) = b.(_parts) -> get_text a = get_text b.
Proof. intros H. unfold get_text. now rewrite H. Qed.

(** *** Lines that are kept *)

Lemma nonblank_collapse (lines : list string) :
  forall previous_blank : bool,
    nonblank (collapse lines previous_blank) = nonblank lines.
Proof.
  induction lines as [|line rest IH]; intros pb; [reflexivity|].
  cbn [collapse nonblank filter].
  destruct (Str.is_empty line) eqn:E; cbn [andb negb].
  - destruct pb; [apply IH|]. cbn [filter]. rewrite E. apply IH.
  - cbn [filter]. rewrite E. cbn [negb]. f_equal. apply IH.
Qed.

Lemma nonblank_drop_blank (lines : list string) :
  nonblank (drop_blank lines) = nonblank lines.
Proof.
  induction lines as [|line rest IH]; [reflexivity|].
  cbn [drop_blank nonblank filter].
  destruct (Str.is_empty line) eqn:E; cbn [negb]; [exact IH|].
  cbn [filter]. now rewrite E.
Qed.

Lemma nonblank_drop_blank_end (lines : list string) :
  nonblank (drop_blank_end lines) = nonblank lines.
Proof.
  induction lines as [|line rest IH]; [reflexivity|].
  cbn [drop_blank_end]. unfold nonblank in *. cbn [filter]. rewrite <- IH.
  destruct (drop_blank_end rest) as [|k kept].
  - destruct (Str.is_empty line) eqn:E; cbn [negb filter];
      [reflexivity | now rewrite E].
  - reflexivity.
Qed.

End Tags.

(** X4.  Tags that are neither ignored nor block tags change nothing: with
    all their start and end tags taken out of a stream of events, the
    handlers leave the parser in the same state, and so give the same
    text. *)
Theorem inline_tags_are_transparent (lib : PyLib)
    (self : TextOnlyHTMLParser) (events : list event) :
  handle_all self (filter (fun ev => negb (inline_event ev)) events)
  = handle_all self events.
Proof.
  revert self. induction events as [|ev events IH]; intros self;
    [reflexivity|].
  cbn [filter]. destruct (inline_event ev) eqn:E; cbn [negb].
  - cbn [handle_all]. rewrite (handle_inline self ev E). cbn [bind].
    apply IH.
  - cbn [handle_all]. destruct (handle self ev); cbn [bind];
      [apply IH | reflexivity..].
Qed.

(** X5.  An ignored element that is never closed hides all that follows:
    after the start tag of an ignored name, as long as no end tag of an
    ignored name arrives, every handler returns, and the output buffer and
    the text stay what they were.  So the text after an [<img>] without an
    end tag is lost. *)
Theorem unclosed_ignored_element_hides_the_rest (lib : PyLib) :
  (forall self tag rest,
      (0 <= self.(_ignored_depth))%Z ->
      ignored tag = true ->
      forallb (fun ev => negb (ignored_end ev)) rest = true ->
      exists self',
        handle_all self (StartTag tag :: rest) = Returns self'
        /\ self'.(_parts) = self.(_parts)
        /\ get_text self' = get_text self)
  /\ parse_answer_text "keep<img>lost<p>too</p>" = Returns "keep".
Proof.
  split; [|reflexivity].
  intros self tag rest Hd Ht Hrest.
  cbn [handle_all handle bind].
  destruct (handle_all_stays_suppressed rest (handle_starttag self tag))
    as (self' & Hall & Hparts); [|exact Hrest|].
  - unfold handle_starttag. fold (ignored tag). rewrite Ht. simpl. lia.
  - exists self'. split; [exact Hall|].
    assert (H : self'.(_parts) = self.(_parts)).
    { rewrite Hparts. unfold handle_starttag. fold (ignored tag).
      now rewrite Ht. }
    split; [exact H | apply get_text_parts, H].
Qed.

Lemma unclosed_ignored_element_hides_the_rest_witness :
  ignored "img" = true
  /\ forall lib : PyLib,
      exists self',
        handle_all (append __init__ "keep")
          (StartTag "img" :: [Data "lost"; EndTag "p"]) = Returns self'
        /\ get_text self' = get_text (append __init__ "keep").
Proof.
  split; [reflexivity|]. intros lib.
  destruct (proj1 (unclosed_ignored_element_hides_the_rest lib)
              (append __init__ "keep") "img" [Data "lost"; EndTag "p"]
              ltac:(simpl; lia) eq_refl eq_refl) as (self' & H & _ & Htext).
  exists self'. split; [exact H | exact Htext].
Defined.

(** X6.  [get_text] returns the lines of the collected text, each
    stripped, with every run of empty lines made one and the empty lines at
    both ends dropped, joined by single newlines; and it loses no line that
    is not empty: these are the same, in the same order, before and
    after. *)
Theorem get_text_keeps_every_nonblank_line (lib : PyLib)
    (self : TextOnlyHTMLParser) :
  get_text self = Str.join Str.nl (kept_lines self)
  /\ Str.splitlines (get_text self) = kept_lines self
  /\ nonblank (Str.splitlines (get_text self))
     = nonblank (map Str.strip (Str.splitlines (Str.join "" self.(_parts)))).
Proof.
  destruct (get_text_lines self) as (Htext & Hclean & _ & Hlast).
  assert (Hsplit : Str.splitlines (get_text self) = kept_lines self).
  { rewrite Htext. apply splitlines_join; [|exact Hlast].
    eapply Forall_impl; [|exact Hclean]. intros line [H _]. exact H. }
  split; [exact Htext|]. split; [exact Hsplit|].
  rewrite Hsplit. unfold kept_lines.
  now rewrite nonblank_drop_blank_end, nonblank_drop_blank, nonblank_collapse.
Qed.

(** ** The retrieval, one page at a time *)

Section Pages.

Context {lib : PyLib}.
Variable transport : nat -> request -> option json.
Variable question_id : string.
Variable limit : Z.

Lemma requests_of_records (ys : list fetch_event) :
  Forall from_record ys -> requests ys = [].
Proof.
  induction 1 as [|[r|a] ys Hy Hys IH]; [reflexivity | destruct Hy | exact IH].
Qed.

Lemma for_answers_records (items : list json) :
  forall c : Z, Forall from_record (fst (for_answers items limit c)).
Proof.
  induction items as [|answer rest IH]; intros c; [constructor|].
  cbn [for_answers]. rewrite gbind_fst. cbn [lift fst snd app].
  destruct (make_record answer) as [record|e| |] eqn:E; try constructor.
  rewrite gbind_fst. cbn [emit fst snd app].
  constructor; [now exists answer|].
  destruct (c + 1 >=? limit)%Z; [constructor | apply IH].
Qed.

(** A request in a run that begins with records comes after them. *)
Lemma split_after_records (ys : list fetch_event) :
  forall (t pre post : list fetch_event) (r : request),
    Forall from_record ys ->
    (ys ++ t = pre ++ Requested r :: post)%list ->
    exists p, pre = (ys ++ p)%list /\ t = (p ++ Requested r :: post)%list.
Proof.
  induction ys as [|y ys IH]; intros t pre post r Hys H.
  - exists pre. split; [reflexivity | exact H].
  - inversion Hys as [|? ? Hy Hys']; subst.
    destruct pre as [|x pre]; simpl in H; injection H as Hx H.
    + subst y. destruct Hy.
    + subst x. destruct (IH _ _ _ _ Hys' H) as (p & -> & ->).
      exists p. split; reflexivity.
Qed.

(** One turn of the loop below the limit: after the request and the records
    of its page the run either stops, and a failed request stops it at once
    with [RuntimeError], or goes on from a greater [collected]. *)
Lemma fetch_loop_unfold (fuel : nat) (c o : Z) (n : nat) :
  (c < limit)%Z ->
  exists ys,
    Forall from_record ys
    /\ (c + collected_in ys <= limit)%Z
    /\ ((fst (fetch_loop transport (S fuel) question_id limit c o n)
         = Requested (get question_id (Z.min DEFAULT_PAGE_SIZE (limit - c)) o)
             :: ys
         /\ (transport n
               (get question_id (Z.min DEFAULT_PAGE_SIZE (limit - c)) o)
             = None ->
             ys = []
             /\ snd (fetch_loop transport (S fuel) question_id limit c o n)
                = Raises RuntimeError))
        \/ (transport n
              (get question_id (Z.min DEFAULT_PAGE_SIZE (limit - c)) o)
            <> None
            /\ (0 < collected_in ys)%Z
            /\ fst (fetch_loop transport (S fuel) question_id limit c o n)
               = (Requested
                    (get question_id (Z.min DEFAULT_PAGE_SIZE (limit - c)) o)
                    :: ys
                    ++ fst (fetch_loop transport fuel question_id limit
                              (c + collected_in ys)
                              (o + Z.min DEFAULT_PAGE_SIZE (limit - c))
                              (S n)))%list
            /\ snd (fetch_loop transport (S fuel) question_id limit c o n)
               = snd (fetch_loop transport fuel question_id limit
                        (c + collected_in ys)
                        (o + Z.min DEFAULT_PAGE_SIZE (limit - c))
                        (S n)))).
Proof.
  intros Hc. cbn [fetch_loop]. unfold get.
  destruct (Z.ltb_spec c limit) as [_|]; [|lia].
  rewrite gbind_fst, gbind_snd. cbn [emit fst snd app].
  assert (Hnone : (c + collected_in [] <= limit)%Z)
    by (unfold collected_in; simpl; lia).
  destruct (transport n _) as [payload|] eqn:Hresp;
    [|exists []; split; [constructor|]; split; [exact Hnone|]; left;
      split; [reflexivity | intros _; split; reflexivity]].
  rewrite gbind_fst, gbind_snd. cbn [lift fst snd app].
  destruct (Py.get payload "data" (JList [])) as [answers|e| |];
    try (exists []; split; [constructor|]; split; [exact Hnone|]; left;
         split; [reflexivity | discriminate]).
  destruct (Py.truthy answers) eqn:Htruthy; cbn [negb];
    [|exists []; split; [constructor|]; split; [exact Hnone|]; left;
      split; [reflexivity | discriminate]].
  rewrite gbind_fst, gbind_snd. cbn [lift fst snd app].
  destruct (Py.iter answers) as [items|e| |] eqn:Hiter;
    try (exists []; split; [constructor|]; split; [exact Hnone|]; left;
         split; [reflexivity | discriminate]).
  rewrite gbind_fst, gbind_snd.
  pose proof (for_answers_records items c) as Hys.
  destruct (for_answers_follows transport question_id limit items c 0 0 true Hc)
    as (Hf & _ & Hret).
  pose proof (follows_bound transport question_id limit
                (fst (for_answers items limit c)) [] c 0 0 true true)
    as Hbound.
  rewrite app_nil_r in Hbound. specialize (Hbound Hf ltac:(lia)).
  exists (fst (for_answers items limit c)).
  split; [exact Hys|]. split; [exact Hbound|].
  destruct (snd (for_answers items limit c)) as [c'|e| |];
    try (left; rewrite app_nil_r; split; [reflexivity | discriminate]).
  destruct (Hret c' eq_refl) as (Hc' & _ & Hlt).
  specialize (Hlt (iter_truthy _ _ Htruthy Hiter)).
  rewrite gbind_fst, gbind_snd. cbn [lift fst snd app].
  destruct (Py.get payload "paging" (JDict [])) as [paging|e| |];
    try (left; rewrite app_nil_r; split; [reflexivity | discriminate]).
  rewrite gbind_fst, gbind_snd. cbn [lift fst snd app].
  destruct (Py.get paging "is_end" JNull) as [is_end|e| |];
    try (left; rewrite app_nil_r; split; [reflexivity | discriminate]).
  destruct (Py.truthy is_end);
    [left; rewrite app_nil_r; split; [reflexivity | discriminate]|].
  right. subst c'. split; [discriminate|]. split; [lia|].
  split; reflexivity.
Qed.

Lemma fetch_loop_at_limit (fuel : nat) (c o : Z) (n : nat) :
  (limit <= c)%Z ->
  fetch_loop transport (S fuel) question_id limit c o n = ([], Returns tt).
Proof.
  intros Hc. cbn [fetch_loop].
  destruct (Z.ltb_spec c limit); [lia | reflexivity].
Qed.

(** Every request but the last is followed by a record. *)
Lemma requests_bound (fuel : nat) :
  forall (c o : Z) (n : nat),
    (Z.of_nat
       (List.length
          (requests (fst (fetch_loop transport fuel question_id limit c o n))))
     <= collected_in (fst (fetch_loop transport fuel question_id limit c o n))
        + 1)%Z.
Proof.
  induction fuel as [|fuel IH]; intros c o n;
    [unfold collected_in; simpl; lia|].
  destruct (Z.lt_ge_cases c limit) as [Hc|Hc];
    [|rewrite fetch_loop_at_limit by assumption;
      unfold collected_in; simpl; lia].
  destruct (fetch_loop_unfold fuel c o n Hc)
    as (ys & Hys & _ & [[Hfst _]|(_ & Hpos & Hfst & _)]);
    rewrite Hfst; pose proof (requests_of_records ys Hys) as Hreq.
  - change (Requested ?r :: ys) with ([Requested r] ++ ys)%list.
    rewrite requests_app, collected_in_app, Hreq.
    pose proof (collected_in_nonneg ys).
    unfold collected_in at 1. simpl. lia.
  - specialize (IH (c + collected_in ys)%Z
                  (o + Z.min DEFAULT_PAGE_SIZE (limit - c))%Z (S n)).
    change (Requested ?r :: ys ++ ?t)%list
      with ([Requested r] ++ ys ++ t)%list.
    rewrite !requests_app, !collected_in_app, Hreq, length_app.
    unfold collected_in at 2. simpl. simpl in IH. lia.
Qed.

(** A failed request is the last event of a run, which ends with
    [RuntimeError]. *)
Lemma fetch_loop_failure (fuel : nat) :
  forall (c o : Z) (n : nat) (pre post : list fetch_event) (r : request),
    fst (fetch_loop transport fuel question_id limit c o n)
    = (pre ++ Requested r :: post)%list ->
    transport (n + List.length (requests pre)) r = None ->
    post = []
    /\ snd (fetch_loop transport fuel question_id limit c o n)
       = Raises RuntimeError.
Proof.
  induction fuel as [|fuel IH]; intros c o n pre post r Hfst Hnone;
    [destruct pre; discriminate|].
  destruct (Z.lt_ge_cases c limit) as [Hc|Hc];
    [|rewrite fetch_loop_at_limit in Hfst by assumption;
      destruct pre; discriminate].
  destruct (fetch_loop_unfold fuel c o n Hc)
    as (ys & Hys & _ & [[Hrun Hfail]|(Hsome & _ & Hrun & Hsnd)]);
    rewrite Hrun in Hfst.
  - destruct pre as [|x pre]; simpl in Hfst; injection Hfst as Hx Hrest.
    + subst r post. simpl in Hnone. rewrite Nat.add_0_r in Hnone.
      destruct (Hfail Hnone) as [-> He]. split; [reflexivity | exact He].
    + exfalso. rewrite Hrest in Hys. apply Forall_app in Hys.
      destruct Hys as [_ Hys]. inversion Hys as [|? ? Hr _]. destruct Hr.
  - destruct pre as [|x pre]; simpl in Hfst; injection Hfst as Hx Hrest.
    + subst r. simpl in Hnone. rewrite Nat.add_0_r in Hnone.
      contradiction.
    + subst x. destruct (split_after_records _ _ _ _ _ Hys Hrest)
        as (p & -> & Htail).
      rewrite Hsnd. apply (IH _ _ _ _ _ _ Htail).
      cbn [requests flat_map app] in Hnone.
      change (flat_map _ (ys ++ p)) with (requests (ys ++ p)) in Hnone.
      rewrite requests_app, (requests_of_records ys Hys) in Hnone.
      simpl in Hnone. rewrite <- Nat.add_succ_comm in Hnone. exact Hnone.
Qed.

End Pages.

(** ** The writer after the retrieval *)

Section Rows.

Context {lib : PyLib}.

Lemma chunk_text_positive (s : string) (n : Z) :
  (0 < n)%Z ->
  exists chunks,
    chunk_text s n = Returns chunks
    /\ String.concat "" chunks = s
    /\ chunks <> [].
Proof.
  intros Hn. unfold chunk_text.
  destruct (Z.leb_spec n 0) as [|_]; [lia|].
  destruct s as [|c s].
  - exists [""]. repeat split. discriminate.
  - cbn [Str.is_empty].
    destruct (chunk_loop_spec (String c s) n Hn
                (S (String.length (String c s))) 0 [])
      as (more & Hrun & Hcat & _ & Hlast & _); [lia | lia | simpl; lia |].
    exists more. split; [exact Hrun|].
    change (Z.to_nat 0) with 0 in *. rewrite drop_zero in Hcat.
    split; [exact Hcat | apply Hlast; simpl; lia].
Qed.

(** With a positive chunk size the writer takes the whole run. *)
Lemma write_rows_positive (t : list fetch_event) (ending : outcome unit)
    (size : Z) :
  (0 < size)%Z ->
  network (write_rows t ending size) = requests t
  /\ result (write_rows t ending size) = ending
  /\ Forall2 row_for (yielded t) (rows (write_rows t ending size)).
Proof.
  intros Hsize. induction t as [|[r|a] t (Hnet & Hres & Hrows)].
  - repeat split. constructor.
  - cbn [write_rows network rows result]. rewrite Hnet, Hres.
    repeat split. exact Hrows.
  - cbn [write_rows].
    destruct (chunk_text_positive a.(content_text) size Hsize)
      as (chunks & -> & Hcat & Hne).
    cbn [network rows result]. split; [exact Hnet|]. split; [exact Hres|].
    change (yielded (Yielded a :: t)) with (a :: yielded t).
    constructor; [|exact Hrows]. now exists chunks.
Qed.

End Rows.

(** X7.  A run sends at most one request more than it yields records, for
    every request but the last is followed by a record; so it sends at most
    [max 0 limit + 1] requests. *)
Theorem requests_are_bounded (lib : PyLib)
    (transport : nat -> request -> option json) (question_id : string)
    (limit : Z) :
  (Z.of_nat
     (List.length (requests (fst (fetch_answers transport question_id limit))))
   <= collected_in (fst (fetch_answers transport question_id limit)) + 1)%Z
  /\ (Z.of_nat
        (List.length
           (requests (fst (fetch_answers transport question_id limit))))
      <= Z.max 0 limit + 1)%Z.
Proof.
  pose proof (requests_bound transport question_id limit
                (S (Z.to_nat limit)) 0 0 0) as H.
  fold (fetch_answers transport question_id limit) in H.
  split; [exact H|].
  destruct (Z.lt_ge_cases limit 0) as [Hneg|Hpos].
  - unfold fetch_answers. rewrite fetch_loop_at_limit by lia. simpl. lia.
  - pose proof (fetch_loop_follows transport question_id limit
                  (S (Z.to_nat limit)) 0 0 0 false) as Hf.
    fold (fetch_answers transport question_id limit) in Hf.
    rewrite <- (app_nil_r (fst (fetch_answers transport question_id limit)))
      in Hf.
    apply follows_bound in Hf; lia.
Qed.

(** X8.  With a limit that is not positive the program sends no request,
    writes no row and ends with status 0, whatever the chunk size. *)
Theorem nonpositive_limit_sends_nothing (lib : PyLib)
    (transport : nat -> request -> option json) (args : Namespace) :
  (args.(limit) <= 0)%Z ->
  fetch_answers transport args.(question) args.(limit) = ([], Returns tt)
  /\ main transport args
     = {| network := []; rows := []; result := Returns 0%Z |}.
Proof.
  intros H.
  assert (E : fetch_answers transport args.(question) args.(limit)
              = ([], Returns tt))
    by (unfold fetch_answers; apply fetch_loop_at_limit; lia).
  split; [exact E|]. unfold main, write_answers_to_csv. now rewrite E.
Qed.

Lemma nonpositive_limit_sends_nothing_witness :
  (0 <= 0)%Z
  /\ forall lib : PyLib,
      main unlimited_server
        {| question := example_question; limit := 0; chunk_size := 0 |}
      = {| network := []; rows := []; result := Returns 0%Z |}.
Proof.
  split; [lia|]. intros lib.
  apply (nonpositive_limit_sends_nothing lib unlimited_server
           {| question := example_question; limit := 0; chunk_size := 0 |}).
  simpl. lia.
Defined.

(** X9.  A request that fails is the last event of the run: no record and
    no request follows it and the retrieval raises [RuntimeError].  With a
    positive chunk size the program then ends with status 1, and the
    records yielded before the failure have their rows written. *)
Theorem failed_request_ends_the_run (lib : PyLib)
    (transport : nat -> request -> option json) (args : Namespace)
    (pre post : list fetch_event) (r : request) :
  fst (fetch_answers transport args.(question) args.(limit))
  = (pre ++ Requested r :: post)%list ->
  transport (List.length (requests pre)) r = None ->
  post = []
  /\ snd (fetch_answers transport args.(question) args.(limit))
     = Raises RuntimeError
  /\ ((0 < args.(chunk_size))%Z ->
      result (main transport args) = Returns 1%Z
      /\ Forall2 row_for (yielded pre) (rows (main transport args))).
Proof.
  intros Hfst Hnone.
  assert (H : post = []
              /\ snd (fetch_answers transport args.(question) args.(limit))
                 = Raises RuntimeError)
    by exact (fetch_loop_failure transport args.(question) args.(limit)
                _ _ _ _ pre post r Hfst Hnone).
  destruct H as [Hpost Hsnd].
  split; [exact Hpost|]. split; [exact Hsnd|]. intros Hsize.
  unfold main, write_answers_to_csv. cbn [network rows result].
  rewrite Hfst, Hpost, Hsnd.
  destruct (write_rows_positive (pre ++ [Requested r]) (Raises RuntimeError)
              args.(chunk_size) Hsize) as (_ & Hres & Hrows).
  rewrite Hres. split; [reflexivity|].
  replace (yielded (pre ++ [Requested r])) with (yielded pre) in Hrows;
    [exact Hrows|].
  unfold yielded. rewrite flat_map_app. simpl. now rewrite app_nil_r.
Qed.

Lemma failed_request_ends_the_run_witness :
  fails_after_one_page 1 (get example_question 5 20) = None
  /\ forall lib : PyLib,
      snd (fetch_answers fails_after_one_page example_question 25)
      = Raises RuntimeError.
Proof.
  split; [reflexivity|]. intros lib.
  pose (args := {| question := example_question; limit := 25;
                   chunk_size := 1 |}).
  pose (t := fst (fetch_answers fails_after_one_page example_question 25)).
  assert (E : t = (firstn 21 t ++ Requested (get example_question 5 20)
                     :: skipn 22 t)%list) by (vm_compute; reflexivity).
  exact (proj1 (proj2 (failed_request_ends_the_run lib fails_after_one_page
                         args _ _ _ E eq_refl))).
Defined.

(** X10.  With a positive chunk size the program sends every request of
    the retrieval, ends as the retrieval ends, and writes one row for each
    record yielded, in the order of the records: the author, the two
    counts, and chunks, at least one, that make up the text of the
    record. *)
Theorem one_row_per_record (lib : PyLib)
    (transport : nat -> request -> option json) (args : Namespace) :
  (0 < args.(chunk_size))%Z ->
  network (main transport args)
  = requests (fst (fetch_answers transport args.(question) args.(limit)))
  /\ result (main transport args)
     = exit_status (snd (fetch_answers transport args.(question) args.(limit)))
  /\ Forall2 row_for
       (yielded (fst (fetch_answers transport args.(question) args.(limit))))
       (rows (main transport args)).
Proof.
  intros Hsize. unfold main, write_answers_to_csv. cbn [network rows result].
  destruct (write_rows_positive
              (fst (fetch_answers transport args.(question) args.(limit)))
              (snd (fetch_answers transport args.(question) args.(limit)))
              args.(chunk_size) Hsize) as (Hnet & Hres & Hrows).
  rewrite Hres. repeat split; assumption.
Qed.

Lemma one_row_per_record_witness :
  (0 < 3)%Z
  /\ forall lib : PyLib,
      rows (main unlimited_server
              {| question := example_question; limit := 1; chunk_size := 3 |})
      = [[Obj (JStr "A"); Int 3; Int 1; Text "Hel"; Text "lo"]]
      /\ Forall2 row_for
           (yielded (fst (fetch_answers unlimited_server example_question 1)))
           (rows (main unlimited_server
                    {| question := example_question; limit := 1;
                       chunk_size := 3 |})).
Proof.
  split; [lia|]. intros lib. split; [reflexivity|].
  apply (one_row_per_record lib unlimited_server
           {| question := example_question; limit := 1; chunk_size := 3 |}).
  simpl. lia.
Defined.

(** X11.  A body that is JSON but not an object is not caught: the lookup
    of its records raises [AttributeError] outside the guarded call, after
    one request and before any record, and the program lets the exception
    through instead of ending with status 1. *)
Theorem payload_must_be_an_object (lib : PyLib)
    (transport : nat -> request -> option json) (args : Namespace)
    (payload : json) :
  (0 < args.(limit))%Z ->
  transport 0
    (get args.(question) (Z.min DEFAULT_PAGE_SIZE args.(limit)) 0)
  = Some payload ->
  is_dict payload = false ->
  fetch_answers transport args.(question) args.(limit)
  = ([Requested
        (get args.(question) (Z.min DEFAULT_PAGE_SIZE args.(limit)) 0)],
     Raises AttributeError)
  /\ main transport args
     = {| network :=
            [get args.(question) (Z.min DEFAULT_PAGE_SIZE args.(limit)) 0];
          rows := [];
          result := Raises AttributeError |}.
Proof.
  intros Hlimit Hresp Hdict.
  assert (E : fetch_answers transport args.(question) args.(limit)
              = ([Requested
                    (get args.(question)
                       (Z.min DEFAULT_PAGE_SIZE args.(limit)) 0)],
                 Raises AttributeError)).
  { unfold fetch_answers. cbn [fetch_loop].
    destruct (Z.ltb_spec 0 args.(limit)) as [_|]; [|lia].
    rewrite Z.sub_0_r. unfold get in Hresp. unfold gbind at 1.
    cbn [emit]. rewrite Hresp.
    destruct payload; try discriminate; reflexivity. }
  split; [exact E|]. unfold main, write_answers_to_csv. now rewrite E.
Qed.

Lemma payload_must_be_an_object_witness :
  is_dict (JList []) = false
  /\ forall lib : PyLib,
      result (main list_server
                {| question := example_question; limit := 500;
                   chunk_size := 30000 |})
      = Raises AttributeError.
Proof.
  split; [reflexivity|]. intros lib.
  pose proof (proj2 (payload_must_be_an_object lib list_server
                       {| question := example_question; limit := 500;
                          chunk_size := 30000 |} (JList [])
                       ltac:(simpl; lia) eq_refl eq_refl)) as H.
  rewrite H. reflexivity.
Defined.

(** ** The records of a run *)

Section RecordsOfARun.

Context {lib : PyLib}.

Lemma make_record_sound (answer : json) (a : AnswerRecord) :
  make_record answer = Returns a ->
  normal_form a.(content_text) /\ Py.truthy a.(author_name) = true.
Proof.
  unfold make_record. intros H.
  apply bind_returns in H. destruct H as (author & _ & H).
  apply bind_returns in H. destruct H as (name & _ & H).
  apply bind_returns in H. destruct H as (v & _ & H).
  apply bind_returns in H. destruct H as (votes & _ & H).
  apply bind_returns in H. destruct H as (f & _ & H).
  apply bind_returns in H. destruct H as (favs & _ & H).
  apply bind_returns in H. destruct H as (c & _ & H).
  apply bind_returns in H. destruct H as (parsed & Hparsed & H).
  injection H as <-. cbn [content_text author_name]. split.
  - unfold parse_content in Hparsed.
    destruct (Py.or c (JStr "")) as [| | |s| |]; try discriminate.
    unfold parse_answer_text in Hparsed.
    destruct (HTMLParser.feed s) as [events| | |]; try discriminate.
    cbn [bind] in Hparsed.
    destruct (handle_all __init__ events) as [parser| | |]; try discriminate.
    injection Hparsed as <-. apply get_text_normal_form.
  - unfold Py.or. destruct (Py.truthy name) eqn:E; [exact E | reflexivity].
Qed.

Lemma in_yielded (a : AnswerRecord) (t : list fetch_event) :
  In a (yielded t) <-> In (Yielded a) t.
Proof.
  unfold yielded. rewrite in_flat_map. split.
  - intros ([r|b] & Hin & Ha); simpl in Ha; [destruct Ha|].
    destruct Ha as [->|[]]. exact Hin.
  - intros H. exists (Yielded a). split; [exact H | now left].
Qed.

Lemma fetch_loop_records (transport : nat -> request -> option json)
    (question_id : string) (limit : Z) (fuel : nat) :
  forall (c o : Z) (n : nat) (a : AnswerRecord),
    In (Yielded a) (fst (fetch_loop transport fuel question_id limit c o n)) ->
    exists answer, make_record answer = Returns a.
Proof.
  induction fuel as [|fuel IH]; intros c o n a Hin; [destruct Hin|].
  destruct (Z.lt_ge_cases c limit) as [Hc|Hc];
    [|rewrite fetch_loop_at_limit in Hin by assumption; destruct Hin].
  destruct (fetch_loop_unfold transport question_id limit fuel c o n Hc)
    as (ys & Hys & _ & [[Hfst _]|(_ & _ & Hfst & _)]);
    rewrite Hfst in Hin; destruct Hin as [Hin|Hin]; try discriminate.
  - rewrite Forall_forall in Hys. exact (Hys _ Hin).
  - apply in_app_or in Hin. destruct Hin as [Hin|Hin].
    + rewrite Forall_forall in Hys. exact (Hys _ Hin).
    + exact (IH _ _ _ _ Hin).
Qed.

(** *** Whole pages *)

Lemma yielded_records (records : list AnswerRecord) :
  yielded (map Yielded records) = records.
Proof.
  unfold yielded. induction records as [|a records IH]; [reflexivity|].
  simpl. now rewrite IH.
Qed.

Lemma requests_records (records : list AnswerRecord) :
  requests (map Yielded records) = [].
Proof.
  unfold requests. induction records as [|a records IH]; [reflexivity|].
  simpl. exact IH.
Qed.

Lemma yielded_app (a b : list fetch_event) :
  yielded (a ++ b) = (yielded a ++ yielded b)%list.
Proof. apply flat_map_app. Qed.

Lemma collected_in_records (records : list AnswerRecord) :
  collected_in (map Yielded records) = Z.of_nat (List.length records).
Proof. unfold collected_in. now rewrite yielded_records. Qed.

(** The loop over a page yields its records in order, as many as are left
    to the limit. *)
Lemma for_answers_exact (limit : Z) (items : list json)
    (records : list AnswerRecord) :
  built items records ->
  forall c : Z,
    (c < limit)%Z ->
    for_answers items limit c
    = (map Yielded (firstn (Z.to_nat (limit - c)) records),
       Returns (c + Z.of_nat (List.length
                                (firstn (Z.to_nat (limit - c)) records)))%Z).
Proof.
  induction 1 as [|answer record items records Hrecord Hrest IH]; intros c Hc.
  - rewrite firstn_nil. simpl. unfold gret. now rewrite Z.add_0_r.
  - cbn [for_answers]. rewrite Hrecord. unfold lift, emit, gbind.
    destruct (Z.geb_spec (c + 1) limit) as [Hge|Hlt].
    + replace (Z.to_nat (limit - c)) with 1 by lia. reflexivity.
    + rewrite (IH (c + 1)%Z Hlt).
      replace (Z.to_nat (limit - c)) with (S (Z.to_nat (limit - (c + 1))))
        by lia.
      cbn [firstn map app List.length]. do 2 f_equal. lia.
Qed.

(** A page that fits below the limit is yielded whole. *)
Lemma for_answers_all (limit : Z) (items : list json)
    (records : list AnswerRecord) :
  built items records ->
  forall c : Z,
    (c + Z.of_nat (List.length items) <= limit)%Z ->
    for_answers items limit c
    = (map Yielded records, Returns (c + Z.of_nat (List.length items))%Z).
Proof.
  induction 1 as [|answer record items records Hrecord Hrest IH]; intros c Hc.
  - simpl. unfold gret. now rewrite Z.add_0_r.
  - cbn [for_answers]. rewrite Hrecord. unfold lift, emit, gbind.
    destruct (Z.geb_spec (c + 1) limit) as [Hge|Hlt].
    + assert (items = []) as ->
        by (destruct items; [reflexivity | simpl in Hc; lia]).
      inversion Hrest; subst. unfold gret. reflexivity.
    + rewrite IH by (cbn [List.length] in Hc; lia).
      cbn [app map List.length]. do 2 f_equal. lia.
Qed.

Lemma fetch_loop_done (transport : nat -> request -> option json)
    (question_id : string) (limit : Z) (fuel : nat) (c o : Z) (n : nat) :
  (limit <= c)%Z ->
  fst (fetch_loop transport fuel question_id limit c o n) = [].
Proof.
  intros Hc. destruct fuel; [reflexivity|].
  now rewrite fetch_loop_at_limit by assumption.
Qed.

Lemma fetch_loop_full (transport : nat -> request -> option json)
    (question_id : string) (limit : Z) :
  (forall n r,
      (0 < r.(req_limit))%Z ->
      exists payload, transport n r = Some payload /\ full_page r payload) ->
  forall (fuel : nat) (c o : Z) (n : nat),
    (0 <= c <= limit)%Z ->
    (limit - c < Z.of_nat fuel)%Z ->
    snd (fetch_loop transport fuel question_id limit c o n) = Returns tt
    /\ (c + collected_in (fst (fetch_loop transport fuel question_id limit c o n))
        = limit)%Z
    /\ List.length
         (requests (fst (fetch_loop transport fuel question_id limit c o n)))
       = chunk_count (limit - c) DEFAULT_PAGE_SIZE.
Proof.
  intros Hserver. induction fuel as [|fuel IH]; intros c o n Hc Hfuel; [lia|].
  destruct (Z.lt_ge_cases c limit) as [Hlt|Hge].
  2:{ rewrite fetch_loop_at_limit by assumption. cbn [fst snd].
      split; [reflexivity|]. split; [unfold collected_in; simpl; lia|].
      rewrite chunk_count_none; [reflexivity | reflexivity | lia]. }
  cbn [fetch_loop]. destruct (Z.ltb_spec c limit) as [_|]; [|lia].
  rewrite gbind_fst, gbind_snd. cbn [emit fst snd app].
  destruct (Hserver n {| req_question := question_id;
                         req_limit := Z.min DEFAULT_PAGE_SIZE (limit - c);
                         req_offset := o |})
    as (payload & -> & items & records & Hdata & Hlen & Hbuilt
        & paging & is_end & Hpaging & Hend & Hflag);
    [unfold DEFAULT_PAGE_SIZE; simpl; lia|].
  cbn [req_limit] in Hlen.
  rewrite gbind_fst, gbind_snd, Hdata. cbn [lift fst snd app].
  assert (Hne : Py.truthy (JList items) = true).
  { destruct items; [|reflexivity].
    unfold DEFAULT_PAGE_SIZE in Hlen. simpl in Hlen. lia. }
  rewrite Hne. cbn [negb Py.iter].
  rewrite gbind_fst, gbind_snd. cbn [lift fst snd app].
  rewrite gbind_fst, gbind_snd.
  rewrite (for_answers_all limit items records Hbuilt c) by lia.
  cbn [fst snd].
  rewrite gbind_fst, gbind_snd, Hpaging. cbn [lift fst snd app].
  rewrite gbind_fst, gbind_snd, Hend. cbn [lift fst snd app]. rewrite Hflag.
  destruct (IH (c + Z.of_nat (List.length items))%Z
              (o + Z.min DEFAULT_PAGE_SIZE (limit - c))%Z (S n))
    as (Hsnd & Hfst & Hreq); [lia | unfold DEFAULT_PAGE_SIZE in Hlen; lia |].
  split; [exact Hsnd|].
  change (Requested ?r :: ?ys ++ ?t)%list with ([Requested r] ++ ys ++ t)%list.
  split.
  - rewrite !collected_in_app, collected_in_records.
    rewrite <- (Forall2_length Hbuilt).
    unfold collected_in at 1. simpl. lia.
  - rewrite !requests_app, requests_records. cbn [requests flat_map app].
    cbn [List.length]. rewrite Hreq. unfold DEFAULT_PAGE_SIZE in *.
    destruct (Z.le_gt_cases (limit - c) 20) as [Hlast|Hmore].
    + rewrite (chunk_count_one (limit - c) 20) by lia.
      rewrite chunk_count_none by lia. reflexivity.
    + rewrite (chunk_count_step (limit - c) 20) by lia. do 2 f_equal. lia.
Qed.

Lemma unlimited_server_full_pages (n : nat) (r : request) :
  (0 < r.(req_limit))%Z ->
  exists payload, unlimited_server n r = Some payload /\ full_page r payload.
Proof.
  intros Hr. exists (page r.(req_limit)). split; [reflexivity|].
  exists (repeat sample_answer (Z.to_nat r.(req_limit))).
  exists (repeat sample_record (Z.to_nat r.(req_limit))).
  split; [reflexivity|]. split; [rewrite repeat_length; lia|]. split.
  - unfold built. induction (Z.to_nat r.(req_limit)) as [|k IH]; simpl;
      constructor; [reflexivity | exact IH].
  - exists (JDict [("is_end", JBool false)]), (JBool false).
    repeat split.
Qed.

(** *** Where [RuntimeError] comes from *)

Lemma bind_raises {A B : Type} (m : outcome A) (k : A -> outcome B) (e : exn) :
  (x <- m ;; k x) = Raises e ->
  m = Raises e \/ exists a, m = Returns a /\ k a = Raises e.
Proof.
  destruct m; simpl; try discriminate; intros H;
    [right; now exists a | left; congruence].
Qed.

Lemma get_not_runtime (v : json) (key : string) (default : json) :
  Py.get v key default <> Raises RuntimeError.
Proof.
  destruct v; simpl; try discriminate.
  destruct (Py.lookup key members); discriminate.
Qed.

Lemma int_not_runtime (v : json) : Py.int v <> Raises RuntimeError.
Proof.
  destruct v; simpl; try discriminate. destruct (int_of_str s); discriminate.
Qed.

Lemma make_record_not_runtime (answer : json) :
  make_record answer <> Raises RuntimeError.
Proof.
  unfold make_record. intros H.
  apply bind_raises in H.
  destruct H as [H|(a & _ & H)]; [exact (get_not_runtime _ _ _ H)|].
  apply bind_raises in H.
  destruct H as [H|(name & _ & H)]; [exact (get_not_runtime _ _ _ H)|].
  apply bind_raises in H.
  destruct H as [H|(v & _ & H)]; [exact (get_not_runtime _ _ _ H)|].
  apply bind_raises in H.
  destruct H as [H|(votes & _ & H)]; [exact (int_not_runtime _ H)|].
  apply bind_raises in H.
  destruct H as [H|(f & _ & H)]; [exact (get_not_runtime _ _ _ H)|].
  apply bind_raises in H.
  destruct H as [H|(favs & _ & H)]; [exact (int_not_runtime _ H)|].
  apply bind_raises in H.
  destruct H as [H|(c & _ & H)]; [exact (get_not_runtime _ _ _ H)|].
  apply bind_raises in H.
  destruct H as [H|(parsed & _ & H)]; [|discriminate].
  unfold parse_content in H.
  destruct (Py.or c (JStr "")); try discriminate.
  destruct (parse_answer_text_raises _ _ H) as [msg Hmsg]. discriminate.
Qed.

Lemma for_answers_not_runtime (limit : Z) (items : list json) :
  forall c : Z, snd (for_answers items limit c) <> Raises RuntimeError.
Proof.
  induction items as [|answer rest IH]; intros c; [discriminate|].
  cbn [for_answers]. rewrite gbind_snd. cbn [lift snd].
  destruct (make_record answer) as [record|e| |] eqn:E; try discriminate.
  - rewrite gbind_snd. cbn [emit snd].
    destruct (c + 1 >=? limit)%Z; [discriminate | apply IH].
  - intros H. injection H as ->. exact (make_record_not_runtime _ E).
Qed.

(** The retrieval raises [RuntimeError] only at a request that failed, and
    that request is its last event. *)
Lemma fetch_loop_runtime (transport : nat -> request -> option json)
    (question_id : string) (limit : Z) (fuel : nat) :
  forall (c o : Z) (n : nat),
    snd (fetch_loop transport fuel question_id limit c o n)
    = Raises RuntimeError ->
    exists pre r,
      fst (fetch_loop transport fuel question_id limit c o n)
      = (pre ++ [Requested r])%list
      /\ transport (n + List.length (requests pre)) r = None.
Proof.
  induction fuel as [|fuel IH]; intros c o n; [discriminate|].
  cbn [fetch_loop]. destruct (c <? limit)%Z; [|discriminate].
  rewrite gbind_fst, gbind_snd. cbn [emit fst snd app].
  set (req := {| req_question := question_id;
                 req_limit := Z.min DEFAULT_PAGE_SIZE (limit - c);
                 req_offset := o |}).
  destruct (transport n req) as [payload|] eqn:Hresp.
  2:{ intros _. exists [], req. cbn [lift fst app requests flat_map List.length].
      rewrite Nat.add_0_r. split; [reflexivity | exact Hresp]. }
  rewrite gbind_fst, gbind_snd. cbn [lift fst snd app].
  destruct (Py.get payload "data" (JList [])) as [answers|e| |] eqn:Hdata;
    try discriminate;
    [|intros H; injection H as ->; destruct (get_not_runtime _ _ _ Hdata)].
  destruct (Py.truthy answers); cbn [negb]; [|discriminate].
  rewrite gbind_fst, gbind_snd. cbn [lift fst snd app].
  destruct (Py.iter answers) as [items|e| |] eqn:Hiter; try discriminate;
    [|destruct answers; simpl in Hiter; discriminate || (intros H; congruence)].
  rewrite gbind_fst, gbind_snd.
  pose proof (for_answers_records limit items c) as Hys.
  pose proof (for_answers_not_runtime limit items c) as Hnot.
  destruct (for_answers items limit c) as [ys [c'|e| |]]; cbn [fst snd] in *;
    try discriminate; [|intros H; congruence].
  rewrite gbind_fst, gbind_snd. cbn [lift fst snd app].
  destruct (Py.get payload "paging" (JDict [])) as [paging|e| |] eqn:Hpaging;
    try discriminate;
    [|intros H; injection H as ->; destruct (get_not_runtime _ _ _ Hpaging)].
  rewrite gbind_fst, gbind_snd. cbn [lift fst snd app].
  destruct (Py.get paging "is_end" JNull) as [is_end|e| |] eqn:Hend;
    try discriminate;
    [|intros H; injection H as ->; destruct (get_not_runtime _ _ _ Hend)].
  destruct (Py.truthy is_end); [discriminate|].
  intros H. destruct (IH _ _ _ H) as (pre & r & Hfst & Hnone).
  exists (Requested req :: ys ++ pre)%list, r. split.
  - rewrite Hfst. cbn [app]. now rewrite <- app_assoc.
  - change (Requested req :: ys ++ pre)%list
      with ([Requested req] ++ ys ++ pre)%list.
    rewrite !requests_app, (requests_of_records ys Hys).
    cbn [requests flat_map app List.length].
    rewrite <- Nat.add_succ_comm. exact Hnone.
Qed.

Lemma write_rows_runtime (t : list fetch_event) (ending : outcome unit)
    (size : Z) :
  result (write_rows t ending size) = Raises RuntimeError ->
  ending = Raises RuntimeError.
Proof.
  induction t as [|[r|a] t IH]; cbn [write_rows]; [intros H; exact H | exact IH|].
  destruct (Z.lt_ge_cases 0 size) as [Hpos|Hneg].
  - destruct (chunk_text_positive a.(content_text) size Hpos)
      as (chunks & -> & _). exact IH.
  - rewrite chunk_text_nonpositive by assumption. discriminate.
Qed.

Lemma exit_status_one (ending : outcome unit) :
  exit_status ending = Returns 1%Z -> ending = Raises RuntimeError.
Proof. destruct ending as [[]|[]| |]; simpl; congruence. Qed.

End RecordsOfARun.

(** X12.  A vote count that is present but is [null], a list or an object
    makes the record fail with [TypeError], and a string that [int] cannot
    read makes it fail with [ValueError]: only a missing count is replaced
    by 0. *)
Theorem count_must_be_a_number (lib : PyLib)
    (members : list (string * json)) (v : json) :
  author_ok members = true ->
  Py.lookup "voteup_count" members = Some v ->
  (not_a_number v = true -> make_record (JDict members) = Raises TypeError)
  /\ (forall s,
         v = JStr s ->
         int_of_str s = None ->
         make_record (JDict members) = Raises Py.invalid_literal).
Proof.
  intros Hauthor Hv.
  destruct (author_name_is_read members Hauthor) as [name Hname].
  unfold make_record. rewrite !get_member. cbn [bind].
  rewrite Hname, Hv. cbn [bind]. split.
  - destruct v; try discriminate; reflexivity.
  - intros s -> Hs. cbn [Py.int]. now rewrite Hs.
Qed.

Lemma count_must_be_a_number_witness :
  author_ok null_votes = true
  /\ forall lib : PyLib, make_record (JDict null_votes) = Raises TypeError.
Proof.
  split; [reflexivity|]. intros lib.
  exact (proj1 (count_must_be_a_number lib null_votes JNull eq_refl eq_refl)
           eq_refl).
Defined.

(** X13.  Every record of a run has a text in the normal form of
    [get_text] (lines stripped, no two blank lines in a row, no blank line
    or white space at either end) and an author name that is not empty. *)
Theorem yielded_records_are_well_formed (lib : PyLib)
    (transport : nat -> request -> option json) (question_id : string)
    (limit : Z) :
  Forall (fun a => normal_form a.(content_text)
                   /\ Py.truthy a.(author_name) = true)
    (yielded (fst (fetch_answers transport question_id limit))).
Proof.
  rewrite Forall_forall. intros a Hin. apply in_yielded in Hin.
  destruct (fetch_loop_records transport question_id limit _ _ _ _ a Hin)
    as [answer H].
  exact (make_record_sound answer a H).
Qed.

(** X14.  When the server answers every request with a page of as many
    good records as asked for and no end flag, the run ends normally with
    exactly [limit] records, after [limit / 20] requests, rounded up. *)
Theorem full_pages_reach_the_limit (lib : PyLib)
    (transport : nat -> request -> option json) (question_id : string)
    (limit : Z) :
  (0 <= limit)%Z ->
  (forall n r,
      (0 < r.(req_limit))%Z ->
      exists payload, transport n r = Some payload /\ full_page r payload) ->
  snd (fetch_answers transport question_id limit) = Returns tt
  /\ collected_in (fst (fetch_answers transport question_id limit)) = limit
  /\ List.length (requests (fst (fetch_answers transport question_id limit)))
     = chunk_count limit DEFAULT_PAGE_SIZE.
Proof.
  intros Hlimit Hserver.
  destruct (fetch_loop_full transport question_id limit Hserver
              (S (Z.to_nat limit)) 0 0 0) as (Hsnd & Hfst & Hreq);
    [lia | lia |].
  fold (fetch_answers transport question_id limit) in Hsnd, Hfst, Hreq.
  rewrite Z.sub_0_r in Hreq.
  split; [exact Hsnd|]. split; [lia | exact Hreq].
Qed.

Lemma full_pages_reach_the_limit_witness :
  (0 <= 45)%Z
  /\ forall lib : PyLib,
      collected_in (fst (fetch_answers unlimited_server example_question 45))
      = 45%Z
      /\ List.length
           (requests (fst (fetch_answers unlimited_server example_question 45)))
         = 3.
Proof.
  split; [lia|]. intros lib.
  destruct (full_pages_reach_the_limit lib unlimited_server example_question
              45 ltac:(lia) unlimited_server_full_pages) as (_ & Hc & Hr).
  split; [exact Hc | exact Hr].
Defined.

(** X15.  The records of the first page are yielded in the order of the
    page, and no more of them than the limit: when the page holds at least
    [limit] records, even more than were asked for, the run yields the first
    [limit] of them and sends no second request. *)
Theorem first_page_is_cut_at_the_limit (lib : PyLib)
    (transport : nat -> request -> option json) (question_id : string)
    (limit : Z) (payload : json) (items : list json)
    (records : list AnswerRecord) :
  (0 < limit)%Z ->
  transport 0 (get question_id (Z.min DEFAULT_PAGE_SIZE limit) 0)
  = Some payload ->
  Py.get payload "data" (JList []) = Returns (JList items) ->
  built items records ->
  exists rest,
    yielded (fst (fetch_answers transport question_id limit))
    = (firstn (Z.to_nat limit) records ++ rest)%list
    /\ ((limit <= Z.of_nat (List.length items))%Z ->
        rest = []
        /\ requests (fst (fetch_answers transport question_id limit))
           = [get question_id (Z.min DEFAULT_PAGE_SIZE limit) 0]).
Proof.
  intros Hlimit Hresp Hdata Hbuilt.
  unfold fetch_answers. cbn [fetch_loop].
  destruct (Z.ltb_spec 0 limit) as [_|]; [|lia].
  rewrite Z.sub_0_r. unfold get in Hresp |- *.
  rewrite gbind_fst. cbn [emit fst snd app]. rewrite Hresp.
  rewrite gbind_fst, Hdata. cbn [lift fst snd app].
  destruct items as [|answer items].
  - inversion Hbuilt; subst. cbn [Py.truthy negb gret fst].
    exists []. rewrite firstn_nil. split; [reflexivity|].
    intros H. simpl in H. lia.
  - cbn [Py.truthy negb Py.iter].
    rewrite gbind_fst. cbn [lift fst snd app]. rewrite gbind_fst.
    rewrite (for_answers_exact limit _ _ Hbuilt 0%Z Hlimit).
    rewrite Z.sub_0_r. cbn [fst snd].
    match goal with
    | |- context [(map Yielded ?ys ++ ?t)%list] => set (tail := t)
    end.
    exists (yielded tail). split.
    + change (Requested ?r :: ?a ++ tail)%list
        with ([Requested r] ++ a ++ tail)%list.
      rewrite !yielded_app, yielded_records. reflexivity.
    + intros Hlen.
      assert (Htail : tail = []).
      { subst tail. rewrite gbind_fst. cbn [lift fst snd app].
        destruct (Py.get payload "paging" (JDict [])) as [paging| | |];
          try reflexivity.
        rewrite gbind_fst. cbn [lift fst snd app].
        destruct (Py.get paging "is_end" JNull) as [is_end| | |];
          try reflexivity.
        destruct (Py.truthy is_end); [reflexivity|].
        apply fetch_loop_done. rewrite length_firstn.
        pose proof (Forall2_length Hbuilt) as Hsame. lia. }
      rewrite Htail. split; [reflexivity|]. rewrite app_nil_r.
      change (Requested ?r :: ?a)%list with ([Requested r] ++ a)%list.
      rewrite requests_app, requests_records. reflexivity.
Qed.

Lemma first_page_is_cut_at_the_limit_witness :
  (0 < 2)%Z
  /\ forall lib : PyLib,
      yielded (fst (fetch_answers three_records_server example_question 2))
      = [sample_record; sample_record].
Proof.
  split; [lia|]. intros lib.
  destruct (first_page_is_cut_at_the_limit lib three_records_server
              example_question 2 (page 3) (repeat sample_answer 3)
              (repeat sample_record 3) ltac:(lia) eq_refl eq_refl
              ltac:(repeat constructor)) as (rest & Hy & Hrest).
  destruct (Hrest ltac:(simpl; lia)) as [-> _]. exact Hy.
Defined.

(** X16.  The program ends with status 1 only when a request has failed,
    and that request is the last thing it did: a fault in the data of a
    response never gives status 1. *)
Theorem status_one_means_a_failed_request (lib : PyLib)
    (transport : nat -> request -> option json) (args : Namespace) :
  result (main transport args) = Returns 1%Z ->
  exists pre r,
    fst (fetch_answers transport args.(question) args.(limit))
    = (pre ++ [Requested r])%list
    /\ transport (List.length (requests pre)) r = None
    /\ snd (fetch_answers transport args.(question) args.(limit))
       = Raises RuntimeError.
Proof.
  unfold main, write_answers_to_csv. cbn [result]. intros H.
  apply exit_status_one, write_rows_runtime in H.
  destruct (fetch_loop_runtime transport args.(question) args.(limit)
              _ _ _ _ H) as (pre & r & Hfst & Hnone).
  exists pre, r. split; [exact Hfst|]. split; [exact Hnone | exact H].
Qed.

Lemma status_one_means_a_failed_request_witness :
  (forall lib : PyLib,
      result (main fails_after_one_page
                {| question := example_question; limit := 25;
                   chunk_size := 30000 |}) = Returns 1%Z)
  /\ forall lib : PyLib,
      snd (fetch_answers fails_after_one_page example_question 25)
      = Raises RuntimeError.
Proof.
  split; [intros lib; vm_compute; reflexivity|]. intros lib.
  destruct (status_one_means_a_failed_request lib fails_after_one_page
              {| question := example_question; limit := 25;
                 chunk_size := 30000 |} ltac:(vm_compute; reflexivity))
    as (pre & r & _ & _ & H).
  exact H.
Defined.


(** X19.  The post-processing is idempotent: [get_text] of a parser whose
    only part is a text that [get_text] has returned gives that text
    again. *)
Theorem get_text_is_idempotent (self : TextOnlyHTMLParser) (depth : Z) :
  get_text {| _parts := [get_text self]; _ignored_depth := depth |}
  = get_text self.
Proof. apply get_text_of_normal_form, get_text_normal_form. Qed.
